(** * Needle-position motor controller (Raspberry Pi Pico W, MicroPython)

    A shallow embedding of [needle_position/motor_control.py],
    [needle_position/sensor_manager.py], [needle_position/config_manager.py]
    and the control routines of [needle_position/main.py], followed by the
    properties of the phase-control core.

    Numbers.  MicroPython's [int] is modelled by [Z].  Every quantity the
    code computes with [/], or that may be an [int] or a [float] at run time
    (power percentages, PID gains, set points), is modelled by the exact
    rationals [Q]: rounding of the binary floating point format is not
    represented.  Results on [Q] are stated up to [==] where a value is
    computed, and with [=] where the code stores a value it was handed.

    Time.  [utime.ticks_ms()] is the device's up-time in milliseconds wrapped
    to the tick period.  Time passes at the suspension points
    ([await asyncio.sleep_ms]); each of them consumes one event of the
    environment, which says by how much the sleep overran and what the
    interrupt handlers, the sensors and the operator did meanwhile. *)

From Stdlib Require Import ZArith QArith Qround Lqa Lia List Bool String.
Import ListNotations.

Open Scope Z_scope.

(** ** Python numeric built-ins on the rational model *)

Module Py.

Definition Qlt_bool (a b : Q) : bool := negb (Qle_bool b a).

(** [min(a, b)]: the first argument unless the second is smaller. *)
Definition min (a b : Q) : Q := if Qlt_bool b a then b else a.

(** [max(a, b)]: the first argument unless the second is larger. *)
Definition max (a b : Q) : Q := if Qlt_bool a b then b else a.

(** [int(x)] truncates towards zero. *)
Definition int (x : Q) : Z := Z.quot (Qnum x) (Z.pos (Qden x)).

(** Nearest integer, ties to the even neighbour. *)
Definition round_half_even (x : Q) : Z :=
  let f := Qfloor x in
  let r := (x - inject_Z f)%Q in
  if Qlt_bool r (1 # 2) then f
  else if Qlt_bool (1 # 2) r then f + 1
  else if Z.even f then f else f + 1.

(** [round(x, 3)]. *)
Definition round3 (x : Q) : Q :=
  (inject_Z (round_half_even (x * 1000)) / 1000)%Q.

End Py.

(** ** [utime]: wrapping tick counters (MicroPython library contract) *)

Module utime.

Definition TICKS_PERIOD : Z := 2 ^ 30.
Definition TICKS_HALF : Z := 2 ^ 29.

(** Value of a tick counter for a given up-time. *)
Definition wrap (t : Z) : Z := t mod TICKS_PERIOD.

(** [ticks_diff(a, b)]: signed difference on the tick ring. *)
Definition ticks_diff (a b : Z) : Z :=
  (a - b + TICKS_HALF) mod TICKS_PERIOD - TICKS_HALF.

End utime.

(** ** [config_manager.py] *)

Module config_manager.

(** [load_config] merges [DEFAULT_CONFIG] into whatever it read, so each of
    these keys is present in the [config] dictionary; the dictionary is a
    record with one field per key the control core reads or writes. *)
Record Config : Type := mkConfig {
  max_rpm_setting : Q;
  soft_start_time_step_ms : Z;
  soft_start_ramp_steps : Q;
  stop_position_default : string;
  calibrated_motor_power_free_running_percent : Q;
  calibrated_motor_power_load_offset_percent : Q;
  max_motor_rpm : Q;
  pid_enabled : bool;
  kp : Q;
  ki : Q;
  kd : Q;
  autotune_target_rpm : Q;
  autotune_power_high : Q;
  autotune_power_low : Q
}.

Definition DEFAULT_CONFIG : Config :=
  {| max_rpm_setting := 500;
     soft_start_time_step_ms := 20;
     soft_start_ramp_steps := 50;
     stop_position_default := "DOWN";
     calibrated_motor_power_free_running_percent := 80;
     calibrated_motor_power_load_offset_percent := 10;
     max_motor_rpm := 2000;
     pid_enabled := false;
     kp := 1 # 2;
     ki := 1 # 100;
     kd := 1 # 20;
     autotune_target_rpm := 300;
     autotune_power_high := 70;
     autotune_power_low := 30 |}.

Definition set_max_motor_rpm (v : Q) (c : Config) : Config :=
  mkConfig (max_rpm_setting c) (soft_start_time_step_ms c)
    (soft_start_ramp_steps c) (stop_position_default c)
    (calibrated_motor_power_free_running_percent c)
    (calibrated_motor_power_load_offset_percent c)
    v (pid_enabled c) (kp c) (ki c) (kd c)
    (autotune_target_rpm c) (autotune_power_high c) (autotune_power_low c).

(** The four writes autotune performs: [kp], [ki], [kd], [pid_enabled]. *)
Definition set_gains (p i d : Q) (en : bool) (c : Config) : Config :=
  mkConfig (max_rpm_setting c) (soft_start_time_step_ms c)
    (soft_start_ramp_steps c) (stop_position_default c)
    (calibrated_motor_power_free_running_percent c)
    (calibrated_motor_power_load_offset_percent c)
    (max_motor_rpm c) en p i d
    (autotune_target_rpm c) (autotune_power_high c) (autotune_power_low c).

(** *** The dictionary itself, [load_config] and [save_config]

    A dictionary from key to value, kept in insertion order.  The loop of
    [load_config] never looks into a value, so the dictionary operations are
    stated for any type of values. *)
Section Dictionaries.

Variable V : Type.

(** [d.get(key)]. *)
Fixpoint dict_get (key : string) (d : list (string * V)) : option V :=
  match d with
  | [] => None
  | (k, v) :: rest => if String.eqb key k then Some v else dict_get key rest
  end.

(** [key in d]. *)
Definition dict_mem (key : string) (d : list (string * V)) : bool :=
  match dict_get key d with
  | Some _ => true
  | None => false
  end.

(** [d[key] = v]: the value is replaced in place, a new key goes last. *)
Fixpoint dict_set (key : string) (v : V) (d : list (string * V))
  : list (string * V) :=
  match d with
  | [] => [(key, v)]
  | (k, x) :: rest =>
      if String.eqb key k then (k, v) :: rest
      else (k, x) :: dict_set key v rest
  end.

(** The loop of [load_config] over [defaults.items()]: a key the loaded
    dictionary lacks is added with its default. *)
Fixpoint merge_defaults (defaults config_loaded : list (string * V))
  : list (string * V) :=
  match defaults with
  | [] => config_loaded
  | (key, default_value) :: rest =>
      merge_defaults rest
        (if dict_mem key config_loaded then config_loaded
         else dict_set key default_value config_loaded)
  end.

End Dictionaries.

Arguments dict_get {V} key d.
Arguments dict_mem {V} key d.
Arguments dict_set {V} key v d.
Arguments merge_defaults {V} defaults config_loaded.

(** The scalar JSON values of the configuration keys. *)
Inductive Value : Type :=
| VNull
| VBool (b : bool)
| VInt (n : Z)
| VFloat (x : Q)
| VStr (s : string).

Definition Dict : Type := list (string * Value).

Definition DEFAULT_CONFIG_dict : Dict :=
  [ ("wifi_ssid", VStr "SSID_Default");
    ("wifi_password", VStr "WI_Fi_Password");
    ("max_rpm_setting", VInt 500);
    ("soft_start_time_step_ms", VInt 20);
    ("soft_start_ramp_steps", VInt 50);
    ("stop_position_default", VStr "DOWN");
    ("calibrated_motor_power_free_running_percent", VInt 80);
    ("calibrated_motor_power_load_offset_percent", VInt 10);
    ("max_motor_rpm", VInt 2000);
    ("pid_enabled", VBool false);
    ("kp", VFloat (1 # 2));
    ("ki", VFloat (1 # 100));
    ("kd", VFloat (1 # 20));
    ("autotune_target_rpm", VInt 300);
    ("autotune_power_high", VInt 70);
    ("autotune_power_low", VInt 30) ]%string.

(** What opening and parsing [config.json] gives: [OSError] or [ValueError],
    or the JSON object of the file.  A file whose JSON is not an object of
    scalars is outside the model. *)
Inductive FileRead : Type :=
| Unreadable
| Object (d : Dict).

(** [save_config()] with dictionary [config]; [writable] says whether the
    write goes through ([OSError] is caught and reported otherwise). *)
Definition save_config (writable : bool) (config : Dict) (file : FileRead)
  : FileRead :=
  if writable then Object config else file.

(** [load_config()]: the new [config] and the file afterwards. *)
Definition load_config (writable : bool) (file : FileRead) : Dict * FileRead :=
  match file with
  | Object config_loaded =>
      (merge_defaults DEFAULT_CONFIG_dict config_loaded, file)
  | Unreadable =>
      (DEFAULT_CONFIG_dict, save_config writable DEFAULT_CONFIG_dict file)
  end.

End config_manager.

(** ** [motor_control.py] *)

Module motor_control.

Definition adc_max_value : Z := 65535.
Definition ac_half_cycle_time_us : Z := 10000.

(** *** class PID *)

Record PID : Type := mkPID {
  kp : Q;
  ki : Q;
  kd : Q;
  _prev_error : Q;
  _integral : Q;
  _last_time : Z;
  _soft_start_current_setpoint : Q
}.

(** [PID(kp, ki, kd)] constructed when the tick counter reads [now]. *)
Definition PID_init (p i d : Q) (now : Z) : PID :=
  mkPID p i d 0 0 now 0.

(** [self.update(setpoint, current_value)] when the tick counter reads
    [current_time]: the new controller state and the returned value. *)
Definition update (self : PID) (current_time : Z) (setpoint current_value : Q)
  : PID * Q :=
  let dt := (inject_Z (utime.ticks_diff current_time (_last_time self)) / 1000)%Q in
  if Qeq_bool dt 0 then (self, _prev_error self)
  else
    let error := (setpoint - current_value)%Q in
    let p_term := (kp self * error)%Q in
    let integral := (_integral self + error * dt)%Q in
    let i_term := (ki self * integral)%Q in
    let d_term := (kd self * (error - _prev_error self) / dt)%Q in
    let output := (p_term + i_term + d_term)%Q in
    let output_percent := Py.max 0 (Py.min 100 output) in
    (mkPID (kp self) (ki self) (kd self) error integral current_time
           (_soft_start_current_setpoint self),
     output_percent).

(** [self.reset()]. *)
Definition reset (self : PID) (now : Z) : PID :=
  mkPID (kp self) (ki self) (kd self) 0 0 now 0.

Definition set_soft_start_setpoint (v : Q) (self : PID) : PID :=
  mkPID (kp self) (ki self) (kd self) (_prev_error self) (_integral self)
        (_last_time self) v.

(** *** Module globals

    [triac_gate_pin] is [None] until [init_motor_control] ran, then the
    level last written to the pin; [foot_pedal_adc] likewise holds the
    current 16-bit reading of the pedal. *)
Record State : Type := mkState {
  motor_power_percent : Q;
  _target_triac_delay_us : Z;
  triac_gate_pin : option bool;
  foot_pedal_adc : option Z;
  last_zero_cross_time_us : Z
}.

Definition initial : State :=
  mkState 0 ac_half_cycle_time_us None None 0.

Definition init_motor_control (pedal : Z) (s : State) : State :=
  mkState (motor_power_percent s) (_target_triac_delay_us s)
          (Some false) (Some pedal) (last_zero_cross_time_us s).

(** [zero_cross_isr]: the interrupt stamps the zero crossing. *)
Definition zero_cross_isr (ticks_us : Z) (s : State) : State :=
  mkState (motor_power_percent s) (_target_triac_delay_us s)
          (triac_gate_pin s) (foot_pedal_adc s) ticks_us.

(** [triac_gate_pin.value(v)] under [if triac_gate_pin:]. *)
Definition gate_write (v : bool) (pin : option bool) : option bool :=
  match pin with
  | Some _ => Some v
  | None => None
  end.

Definition min_fire_delay_us : Z := 500.
Definition max_effective_delay_us : Z := ac_half_cycle_time_us - 200.

(** The delay reserved for "motor off": beyond the half cycle. *)
Definition off_delay_us : Z := ac_half_cycle_time_us + 100.

Definition clamp_percent (percent : Q) : Q := Py.max 0 (Py.min 100 percent).

(** The linear map from a (clamped) percentage to a delay. *)
Definition calculated_delay (percent : Q) : Q :=
  let delay_range := max_effective_delay_us - min_fire_delay_us in
  (inject_Z min_fire_delay_us
   + inject_Z delay_range * ((100 - percent) / 100))%Q.

Definition set_motor_power (percent : Q) (s : State) : State :=
  let percent := clamp_percent percent in
  if Qle_bool percent 5 then
    mkState percent off_delay_us (gate_write false (triac_gate_pin s))
            (foot_pedal_adc s) (last_zero_cross_time_us s)
  else
    mkState percent (Py.int (calculated_delay percent)) (triac_gate_pin s)
            (foot_pedal_adc s) (last_zero_cross_time_us s).

(** The motor is commanded off: the delay is the off value and the gate is
    not high. *)
Definition commanded_off (s : State) : Prop :=
  _target_triac_delay_us s = off_delay_us /\ triac_gate_pin s <> Some true.

Definition read_foot_pedal (s : State) : Z :=
  match foot_pedal_adc s with
  | Some v => v
  | None => 0
  end.

Definition get_target_rpm_from_pedal
           (pedal_value : Z) (max_rpm_setting max_motor_rpm : Q) : Q :=
  if pedal_value <? 1000 then 0%Q
  else
    let normalized_pedal :=
      (inject_Z (pedal_value - 1000) / inject_Z (adc_max_value - 1000))%Q in
    let normalized_pedal := Py.max 0 (Py.min 1 normalized_pedal) in
    let target_rpm := inject_Z (Py.int (normalized_pedal * max_rpm_setting)) in
    Py.min target_rpm max_motor_rpm.

(** The pedal reading over its usable range, clamped to [[0, 1]], as
    [get_target_rpm_from_pedal] computes it. *)
Definition normalized (pedal_value : Z) : Q :=
  Py.max 0 (Py.min 1
    (inject_Z (pedal_value - 1000) / inject_Z (adc_max_value - 1000))%Q).

(** *** One pass of the [while True] body of [triac_firing_task]

    Given the task's private [current_cycle_zc_time], returns its new value
    and the levels written to the gate pin, in order.  The spin-wait only
    passes time; [fire_triac] writes high, then low. *)
Definition fire_triac (s : State) : list bool :=
  match triac_gate_pin s with
  | Some _ => [true; false]
  | None => []
  end.

Definition hold_gate_low (s : State) : list bool :=
  match triac_gate_pin s with
  | Some _ => [false]
  | None => []
  end.

Definition triac_firing_iter (current_cycle_zc_time : Z) (s : State)
  : Z * list bool :=
  if 0 <? utime.ticks_diff (last_zero_cross_time_us s) current_cycle_zc_time
  then
    if (0 <? _target_triac_delay_us s)
       && (_target_triac_delay_us s <? ac_half_cycle_time_us)
    then (last_zero_cross_time_us s, fire_triac s)
    else (last_zero_cross_time_us s, hold_gate_low s)
  else (current_cycle_zc_time, hold_gate_low s).

End motor_control.

(** ** [sensor_manager.py] *)

Module sensor_manager.

Definition RPM_POLES : Z := 1.

(** The position sensors are [None] until [init_sensors] ran, then the
    level read on the pin (active low). *)
Record State : Type := mkState {
  pulse_count : Z;
  current_rpm : Z;
  _last_rpm_calc_time : Z;
  needle_up_sensor : option bool;
  needle_down_sensor : option bool
}.

Definition initial : State := mkState 0 0 0 None None.

(** [init_sensors()] when the tick counter reads [now], the position pins
    reading [up] and [down]. *)
Definition init_sensors (now : Z) (up down : bool) (s : State) : State :=
  mkState (pulse_count s) (current_rpm s) now (Some up) (Some down).

(** [rpm_pulse_isr] accepted [n] further pulses. *)
Definition add_pulses (n : Z) (s : State) : State :=
  mkState (pulse_count s + n) (current_rpm s) (_last_rpm_calc_time s)
          (needle_up_sensor s) (needle_down_sensor s).

Definition set_levels (up down : bool) (s : State) : State :=
  mkState (pulse_count s) (current_rpm s) (_last_rpm_calc_time s)
          (option_map (fun _ => up) (needle_up_sensor s))
          (option_map (fun _ => down) (needle_down_sensor s)).

(** [calculate_rpm()] when the tick counter reads [current_calc_time]. *)
Definition calculate_rpm (current_calc_time : Z) (s : State) : State * Z :=
  let time_since_last_call_ms :=
    utime.ticks_diff current_calc_time (_last_rpm_calc_time s) in
  if 0 <? time_since_last_call_ms then
    let rpm_val :=
      (inject_Z (pulse_count s) / inject_Z time_since_last_call_ms
       * 1000 * (60 / inject_Z RPM_POLES))%Q in
    (mkState 0 (Py.int rpm_val) current_calc_time
             (needle_up_sensor s) (needle_down_sensor s),
     Py.int rpm_val)
  else
    (mkState (pulse_count s) 0 current_calc_time
             (needle_up_sensor s) (needle_down_sensor s),
     0).

Definition get_needle_up_status (s : State) : bool :=
  match needle_up_sensor s with
  | Some level => negb level
  | None => false
  end.

Definition get_needle_down_status (s : State) : bool :=
  match needle_down_sensor s with
  | Some level => negb level
  | None => false
  end.

(** [rpm_pulse_isr] taken when the microsecond counter reads
    [current_time]; [last_pulse_time] is the interrupt's own global, threaded
    here beside the state.  An edge is counted when more than 100 us passed
    since the last counted one. *)
Definition rpm_pulse_isr (current_time last_pulse_time : Z) (s : State)
  : Z * State :=
  if 100 <? utime.ticks_diff current_time last_pulse_time
  then (current_time, add_pulses 1 s)
  else (last_pulse_time, s).

(** The interrupt taken at each of the readings [times], in order. *)
Fixpoint pulse_edges (times : list Z) (last_pulse_time : Z) (s : State)
  : Z * State :=
  match times with
  | [] => (last_pulse_time, s)
  | t :: rest =>
      let '(last, s') := rpm_pulse_isr t last_pulse_time s in
      pulse_edges rest last s'
  end.

End sensor_manager.

(** ** [main.py] *)

Module main.

Import motor_control.

(** *** The globals of [main.py] *)

Record Globals : Type := mkGlobals {
  is_pedal_pressed : bool;
  soft_start_active : bool;
  current_soft_start_power : Q;
  target_rpm_setpoint : Q;
  last_rpm : Z;
  pid_controller : option PID;
  last_pid_kp : option Q;
  last_pid_ki : option Q;
  last_pid_kd : option Q;
  max_rpm_calibration_active : bool;
  autotune_active : bool;
  autotune_stage : Z
}.

Definition initial_globals : Globals :=
  mkGlobals false false 0 0 0 None None None None false false 0.

(** What [main.py] prints.  A banner of several [print] calls in a row is
    one message; the newest message is at the head of the console. *)
Inductive Msg : Type :=
| MaxRpmCalibrationInitiated
| MaxRpmCalibrationSample (current_rpm max_observed_rpm : Z)
| MaxRpmCalibrationComplete (max_observed_rpm : Z)
| MaxRpmCalibrationStopped
| AutotuneInitiated
| AutotuneStage1
| AutotuneResults (Ku kp_zn ki_zn kd_zn : Q)
| AutotuneGainsSaved
| AutotuneInsufficient
| AutotuneTimedOut
| AutotuneFinished
| PidReinitialized
| PedalPressed
| PidSoftStartComplete (target_rpm : Q)
| OpenLoopSoftStartComplete (power : Z)
| PedalReleased
| StoppingAt (position : string)
| NeedleStopped (position : string)
| NeedleStopTimedOut (position : string).

(** *** The device as the control tasks see it *)

Record World : Type := mkWorld {
  uptime_ms : Z;
  awaits : nat;
  sensors : sensor_manager.State;
  motor : motor_control.State;
  config : config_manager.Config;
  app : Globals;
  console : list Msg
}.

Definition with_sensors (s : sensor_manager.State) (w : World) : World :=
  mkWorld (uptime_ms w) (awaits w) s (motor w) (config w) (app w) (console w).
Definition with_motor (m : motor_control.State) (w : World) : World :=
  mkWorld (uptime_ms w) (awaits w) (sensors w) m (config w) (app w) (console w).
Definition with_config (c : config_manager.Config) (w : World) : World :=
  mkWorld (uptime_ms w) (awaits w) (sensors w) (motor w) c (app w) (console w).
Definition with_app (g : Globals) (w : World) : World :=
  mkWorld (uptime_ms w) (awaits w) (sensors w) (motor w) (config w) g (console w).
Definition print (m : Msg) (w : World) : World :=
  mkWorld (uptime_ms w) (awaits w) (sensors w) (motor w) (config w) (app w)
          (m :: console w).

Definition set_is_pedal_pressed (b : bool) (g : Globals) : Globals :=
  mkGlobals b (soft_start_active g) (current_soft_start_power g)
    (target_rpm_setpoint g) (last_rpm g) (pid_controller g) (last_pid_kp g)
    (last_pid_ki g) (last_pid_kd g) (max_rpm_calibration_active g)
    (autotune_active g) (autotune_stage g).
Definition set_soft_start_active (b : bool) (g : Globals) : Globals :=
  mkGlobals (is_pedal_pressed g) b (current_soft_start_power g)
    (target_rpm_setpoint g) (last_rpm g) (pid_controller g) (last_pid_kp g)
    (last_pid_ki g) (last_pid_kd g) (max_rpm_calibration_active g)
    (autotune_active g) (autotune_stage g).
Definition set_current_soft_start_power (p : Q) (g : Globals) : Globals :=
  mkGlobals (is_pedal_pressed g) (soft_start_active g) p
    (target_rpm_setpoint g) (last_rpm g) (pid_controller g) (last_pid_kp g)
    (last_pid_ki g) (last_pid_kd g) (max_rpm_calibration_active g)
    (autotune_active g) (autotune_stage g).
Definition set_target_rpm_setpoint (r : Q) (g : Globals) : Globals :=
  mkGlobals (is_pedal_pressed g) (soft_start_active g)
    (current_soft_start_power g) r (last_rpm g) (pid_controller g)
    (last_pid_kp g) (last_pid_ki g) (last_pid_kd g)
    (max_rpm_calibration_active g) (autotune_active g) (autotune_stage g).
Definition set_last_rpm (r : Z) (g : Globals) : Globals :=
  mkGlobals (is_pedal_pressed g) (soft_start_active g)
    (current_soft_start_power g) (target_rpm_setpoint g) r (pid_controller g)
    (last_pid_kp g) (last_pid_ki g) (last_pid_kd g)
    (max_rpm_calibration_active g) (autotune_active g) (autotune_stage g).
Definition set_pid_controller (p : option PID) (g : Globals) : Globals :=
  mkGlobals (is_pedal_pressed g) (soft_start_active g)
    (current_soft_start_power g) (target_rpm_setpoint g) (last_rpm g) p
    (last_pid_kp g) (last_pid_ki g) (last_pid_kd g)
    (max_rpm_calibration_active g) (autotune_active g) (autotune_stage g).
Definition set_last_pid (p i d : option Q) (g : Globals) : Globals :=
  mkGlobals (is_pedal_pressed g) (soft_start_active g)
    (current_soft_start_power g) (target_rpm_setpoint g) (last_rpm g)
    (pid_controller g) p i d
    (max_rpm_calibration_active g) (autotune_active g) (autotune_stage g).
Definition set_max_rpm_calibration_active (b : bool) (g : Globals) : Globals :=
  mkGlobals (is_pedal_pressed g) (soft_start_active g)
    (current_soft_start_power g) (target_rpm_setpoint g) (last_rpm g)
    (pid_controller g) (last_pid_kp g) (last_pid_ki g) (last_pid_kd g)
    b (autotune_active g) (autotune_stage g).
Definition set_autotune_active (b : bool) (g : Globals) : Globals :=
  mkGlobals (is_pedal_pressed g) (soft_start_active g)
    (current_soft_start_power g) (target_rpm_setpoint g) (last_rpm g)
    (pid_controller g) (last_pid_kp g) (last_pid_ki g) (last_pid_kd g)
    (max_rpm_calibration_active g) b (autotune_stage g).
Definition set_autotune_stage (n : Z) (g : Globals) : Globals :=
  mkGlobals (is_pedal_pressed g) (soft_start_active g)
    (current_soft_start_power g) (target_rpm_setpoint g) (last_rpm g)
    (pid_controller g) (last_pid_kp g) (last_pid_ki g) (last_pid_kd g)
    (max_rpm_calibration_active g) (autotune_active g) n.

(** Update of the globals inside a world. *)
Definition upd (f : Globals -> Globals) (w : World) : World :=
  with_app (f (app w)) w.

(** *** Calls into the other modules *)

Definition ticks_ms (w : World) : Z := utime.wrap (uptime_ms w).

Definition set_motor_power (percent : Q) (w : World) : World :=
  with_motor (motor_control.set_motor_power percent (motor w)) w.

Definition calculate_rpm (w : World) : World * Z :=
  let '(s, rpm) := sensor_manager.calculate_rpm (ticks_ms w) (sensors w) in
  (with_sensors s w, rpm).

(** [save_config()] rewrites the file on flash from the dictionary; the
    dictionary, which is all the control core reads, is not changed. *)
Definition save_config (w : World) : World := w.

(** *** Suspension points *)

(** What happened while a task was suspended: by how much the sleep
    overran, the pulses the RPM interrupt counted, the levels of the two
    position pins, the pedal reading, and whether the operator posted
    [/stop_operations]. *)
Record Event : Type := mkEvent {
  overrun_ms : N;
  new_pulses : N;
  needle_up_level : bool;
  needle_down_level : bool;
  pedal_adc : Z;
  stop_operations : bool
}.

(** [web_server.stop_operations_web]. *)
Definition stop_operations_web (w : World) : World :=
  set_motor_power 0
    (upd (set_max_rpm_calibration_active false)
         (upd (set_autotune_active false) w)).

Definition set_pedal (v : Z) (m : motor_control.State) : motor_control.State :=
  mkState (motor_power_percent m) (_target_triac_delay_us m)
          (triac_gate_pin m) (option_map (fun _ => v) (foot_pedal_adc m))
          (last_zero_cross_time_us m).

Definition happen (e : Event) (elapsed : Z) (w : World) : World :=
  let w1 :=
    mkWorld (uptime_ms w + elapsed) (S (awaits w))
      (sensor_manager.set_levels (needle_up_level e) (needle_down_level e)
         (sensor_manager.add_pulses (Z.of_N (new_pulses e)) (sensors w)))
      (set_pedal (pedal_adc e) (motor w))
      (config w) (app w) (console w) in
  if stop_operations e then stop_operations_web w1 else w1.

(** Failure of a routine: the exception raised, or the model's recursion
    budget ran out. *)
Inductive exn : Type := AttributeError | ZeroDivisionError.

Inductive Outcome (A : Type) : Type :=
| Done (a : A)
| Raised (e : exn) (w : World)
| OutOfFuel.
Arguments Done {A} a.
Arguments Raised {A} e w.
Arguments OutOfFuel {A}.

Definition bind {A B : Type} (m : Outcome A) (k : A -> Outcome B) : Outcome B :=
  match m with
  | Done a => k a
  | Raised e w => Raised e w
  | OutOfFuel => OutOfFuel
  end.

Notation "x <- m ;; k" := (bind m (fun x => k))
  (at level 61, m at next level, right associativity).

Section Tasks.

(** The environment: event [k] is what happens during the [k]-th sleep. *)
Variable env : nat -> Event.

(** [await asyncio.sleep_ms(n)]. *)
Definition sleep_ms (n : Z) (w : World) : World :=
  let e := env (awaits w) in
  happen e (Z.max 0 n + Z.of_N (overrun_ms e)) w.

(** **** [run_max_rpm_calibration] *)

Fixpoint calibration_loop (fuel : nat) (start_time max_observed_rpm : Z)
         (w : World) : Outcome (Z * World) :=
  if (utime.ticks_diff (ticks_ms w) start_time <? 0)
     && max_rpm_calibration_active (app w)
  then
    match fuel with
    | O => OutOfFuel
    | S fuel' =>
        let '(w1, current_rpm) := calculate_rpm w in
        let max_observed_rpm :=
          if max_observed_rpm <? current_rpm then current_rpm
          else max_observed_rpm in
        let w2 :=
          print (MaxRpmCalibrationSample current_rpm max_observed_rpm) w1 in
        calibration_loop fuel' start_time max_observed_rpm (sleep_ms 100 w2)
    end
  else Done (max_observed_rpm, w).

Definition run_max_rpm_calibration (fuel : nat) (w : World) : Outcome World :=
  let w := print MaxRpmCalibrationInitiated w in
  let max_observed_rpm := 0 in
  let w := set_motor_power 100 w in
  let start_time := ticks_ms w in
  r <- calibration_loop fuel start_time max_observed_rpm w ;;
  let '(max_observed_rpm, w) := r in
  let w := set_motor_power 0 w in
  let w :=
    if max_rpm_calibration_active (app w) then
      print (MaxRpmCalibrationComplete max_observed_rpm)
        (save_config
           (with_config
              (config_manager.set_max_motor_rpm (inject_Z max_observed_rpm)
                 (config w)) w))
    else print MaxRpmCalibrationStopped w in
  Done (upd (set_max_rpm_calibration_active false) w).

(** **** [autotune_pid]

    The locals of the routine that its loop reads or writes.  The peak
    counters, [last_peak_time] and [oscillation_periods] are never used
    after their initialisation and are left out. *)

Record AutotuneLocals : Type := mkLocals {
  autotune_target_rpm : Q;
  autotune_power_high : Q;
  autotune_power_low : Q;
  autotune_start_time : Z;
  tuning_timeout : Z;
  last_rpm_sample_time : Z;
  max_rpm_in_oscillation : Z;
  min_rpm_in_oscillation : Z
}.

Definition sampled (now mx mn : Z) (l : AutotuneLocals) : AutotuneLocals :=
  mkLocals (autotune_target_rpm l) (autotune_power_high l)
    (autotune_power_low l) (autotune_start_time l) (tuning_timeout l)
    now mx mn.

(** The assumed oscillation period, in seconds. *)
Definition Pu : Q := 2.

(** The estimate of the ultimate gain from the power step and the swing. *)
Definition ultimate_gain (l : AutotuneLocals) : Q :=
  let delta_power := (autotune_power_high l - autotune_power_low l)%Q in
  let delta_rpm_oscillation :=
    max_rpm_in_oscillation l - min_rpm_in_oscillation l in
  if 0 <? delta_rpm_oscillation
  then (delta_power / inject_Z delta_rpm_oscillation)%Q
  else 1 # 2.

Definition kp_zn (l : AutotuneLocals) : Q := ((6 # 10) * ultimate_gain l)%Q.
Definition ti_zn : Q := (Pu / 2)%Q.
Definition td_zn : Q := (Pu / 8)%Q.
Definition ki_zn (l : AutotuneLocals) : Q :=
  if Py.Qlt_bool 0 ti_zn then (kp_zn l / ti_zn)%Q else 0%Q.
Definition kd_zn (l : AutotuneLocals) : Q := (kp_zn l * td_zn)%Q.

(** The branch taken once a sufficient swing was seen: gains written,
    PID enabled, stage 2, routine inactive, motor stopped. *)
Definition autotune_complete (l : AutotuneLocals) (w : World) : World :=
  let w := print (AutotuneResults (ultimate_gain l) (kp_zn l) (ki_zn l) (kd_zn l)) w in
  let w :=
    with_config
      (config_manager.set_gains (Py.round3 (kp_zn l)) (Py.round3 (ki_zn l))
         (Py.round3 (kd_zn l)) true (config w)) w in
  let w := print AutotuneGainsSaved (save_config w) in
  let w := upd (set_autotune_stage 2) w in
  let w := upd (set_autotune_active false) w in
  set_motor_power 0 w.

(** The body of the [while] loop up to, and without, its final sleep;
    [true] in the result stands for [break].  The two comparisons of
    [last_rpm] with [current_rpm] guard [pass] only. *)
Definition autotune_body (l : AutotuneLocals) (w : World)
  : bool * AutotuneLocals * World :=
  let '(w, current_rpm) := calculate_rpm w in
  if (10 <? current_rpm)
     && (100 <=? utime.ticks_diff (ticks_ms w) (last_rpm_sample_time l))
  then
    let now := ticks_ms w in
    let w :=
      if Py.Qlt_bool (inject_Z current_rpm) (autotune_target_rpm l * (9 # 10))
      then set_motor_power (autotune_power_high l) w
      else if Py.Qlt_bool (autotune_target_rpm l * (11 # 10)) (inject_Z current_rpm)
      then set_motor_power (autotune_power_low l) w
      else w in
    let mx :=
      if max_rpm_in_oscillation l <? current_rpm then current_rpm
      else max_rpm_in_oscillation l in
    let mn :=
      if current_rpm <? min_rpm_in_oscillation l then current_rpm
      else min_rpm_in_oscillation l in
    let l := sampled now mx mn l in
    if 10000 <? utime.ticks_diff (ticks_ms w) (autotune_start_time l) then
      if Py.Qlt_bool (autotune_target_rpm l * (1 # 10)) (inject_Z (mx - mn))
      then (true, l, autotune_complete l w)
      else (false, l, print AutotuneInsufficient w)
    else (false, l, w)
  else (false, l, w).

Fixpoint autotune_loop (fuel : nat) (l : AutotuneLocals) (w : World)
  : Outcome (AutotuneLocals * World) :=
  if autotune_active (app w)
     && (utime.ticks_diff (ticks_ms w) (tuning_timeout l) <? 0)
  then
    match fuel with
    | O => OutOfFuel
    | S fuel' =>
        let '(break, l1, w1) := autotune_body l w in
        if break then Done (l1, w1)
        else autotune_loop fuel' l1 (sleep_ms 50 w1)
    end
  else Done (l, w).

(** What follows the loop. *)
Definition autotune_epilogue (w : World) : World :=
  let w :=
    if autotune_active (app w)
    then upd (set_autotune_stage 0) (print AutotuneTimedOut w)
    else w in
  let w := upd (set_autotune_active false) w in
  print AutotuneFinished (set_motor_power 0 w).

(** The routine up to the end of its loop: the locals at loop exit and
    the world there. *)
Definition autotune_run (fuel : nat) (w : World)
  : Outcome (AutotuneLocals * World) :=
  let target := config_manager.autotune_target_rpm (config w) in
  let high := config_manager.autotune_power_high (config w) in
  let low := config_manager.autotune_power_low (config w) in
  let w := print AutotuneInitiated w in
  let w := upd (set_autotune_active true) w in
  let w := upd (set_autotune_stage 1) w in
  match pid_controller (app w) with
  | None => Raised AttributeError w
  | Some pid =>
      let w := upd (set_pid_controller (Some (reset pid (ticks_ms w)))) w in
      let w := print AutotuneStage1 w in
      let w := set_motor_power high w in
      let w := sleep_ms 2000 w in
      let l :=
        mkLocals target high low (ticks_ms w) (ticks_ms w + 45000)
                 (ticks_ms w) 0 9999 in
      autotune_loop fuel l w
  end.

(** The world in which the loop is entered, for a controller [pid]: flags
    set, controller reset, high power commanded, two seconds waited. *)
Definition started (pid : PID) (w : World) : World :=
  let w := upd (set_autotune_stage 1)
             (upd (set_autotune_active true) (print AutotuneInitiated w)) in
  let w := upd (set_pid_controller (Some (reset pid (ticks_ms w)))) w in
  sleep_ms 2000
    (set_motor_power (config_manager.autotune_power_high (config w))
       (print AutotuneStage1 w)).

Definition initial_locals (w : World) (now : Z) : AutotuneLocals :=
  mkLocals (config_manager.autotune_target_rpm (config w))
           (config_manager.autotune_power_high (config w))
           (config_manager.autotune_power_low (config w))
           now (now + 45000) now 0 9999.

Definition autotune_pid (fuel : nat) (w : World) : Outcome World :=
  r <- autotune_run fuel w ;;
  Done (autotune_epilogue (snd r)).

(** **** [main_loop] *)

(** [x != last] where [last] may still be [None]. *)
Definition differs (x : Q) (last : option Q) : bool :=
  match last with
  | Some y => negb (Qeq_bool x y)
  | None => true
  end.

(** There is no controller yet, or a configured gain is not the one last
    applied. *)
Definition pid_stale (c : config_manager.Config) (g : Globals) : bool :=
  match pid_controller g with None => true | Some _ => false end
  || differs (config_manager.kp c) (last_pid_kp g)
  || differs (config_manager.ki c) (last_pid_ki g)
  || differs (config_manager.kd c) (last_pid_kd g).

(** The controller is rebuilt when there is none or a gain changed. *)
Definition pid_reinit_check (w : World) : World :=
  let c := config w in
  let g := app w in
  if pid_stale c g
  then
    let w := print PidReinitialized w in
    let pid :=
      PID_init (config_manager.kp c) (config_manager.ki c)
               (config_manager.kd c) (ticks_ms w) in
    let w := upd (set_pid_controller (Some (reset pid (ticks_ms w)))) w in
    upd (set_last_pid (Some (config_manager.kp c))
                      (Some (config_manager.ki c))
                      (Some (config_manager.kd c))) w
  else w.

(** The PID branch of a pressed pedal (soft start, then running). *)
Definition pid_control_path (w : World) : Outcome World :=
  let c := config w in
  let target := target_rpm_setpoint (app w) in
  if soft_start_active (app w) then
    if Qeq_bool (config_manager.soft_start_ramp_steps c) 0
    then Raised ZeroDivisionError w
    else
      let rpm_increment_per_step :=
        (config_manager.max_rpm_setting c
         / config_manager.soft_start_ramp_steps c)%Q in
      match pid_controller (app w) with
      | None => Raised AttributeError w
      | Some pid =>
          let ramped :=
            (_soft_start_current_setpoint pid + rpm_increment_per_step)%Q in
          let '(setpoint, w) :=
            if Qle_bool target ramped
            then (target,
                  print (PidSoftStartComplete target)
                        (upd (set_soft_start_active false) w))
            else (ramped, w) in
          let '(pid, output_power) :=
            update (set_soft_start_setpoint setpoint pid) (ticks_ms w)
                   setpoint (inject_Z (last_rpm (app w))) in
          let w := upd (set_pid_controller (Some pid)) w in
          let w := set_motor_power output_power w in
          Done (sleep_ms (config_manager.soft_start_time_step_ms c) w)
      end
  else
    match pid_controller (app w) with
    | None => Raised AttributeError w
    | Some pid =>
        let '(pid, output_power) :=
          update pid (ticks_ms w) target (inject_Z (last_rpm (app w))) in
        let w := upd (set_pid_controller (Some pid)) w in
        let w := set_motor_power output_power w in
        Done (sleep_ms 20 w)
    end.

(** The power the pedal asks for without PID. *)
Definition open_loop_target (pedal_value : Z) (c : config_manager.Config) : Q :=
  let base_power_needed_for_max_rpm :=
    config_manager.calibrated_motor_power_free_running_percent c in
  let additional_power_for_load :=
    config_manager.calibrated_motor_power_load_offset_percent c in
  let max_effective_power_setting :=
    (base_power_needed_for_max_rpm + additional_power_for_load)%Q in
  let scaled_pedal :=
    (inject_Z (pedal_value - 1000) / inject_Z (adc_max_value - 1000))%Q in
  let scaled_pedal := Py.max 0 (Py.min 1 scaled_pedal) in
  let current_target_power_percent :=
    (scaled_pedal * max_effective_power_setting)%Q in
  let current_target_power_percent :=
    Py.min current_target_power_percent max_effective_power_setting in
  Py.min current_target_power_percent 100.

(** The open-loop branch of a pressed pedal. *)
Definition open_loop_path (pedal_value : Z) (w : World) : Outcome World :=
  let c := config w in
  let current_target_power_percent := open_loop_target pedal_value c in
  if soft_start_active (app w) then
    if Qeq_bool (config_manager.soft_start_ramp_steps c) 0
    then Raised ZeroDivisionError w
    else
      let power_increment_per_step :=
        (current_target_power_percent
         / config_manager.soft_start_ramp_steps c)%Q in
      let ramped :=
        (current_soft_start_power (app w) + power_increment_per_step)%Q in
      let w := upd (set_current_soft_start_power ramped) w in
      let w :=
        if Qle_bool current_target_power_percent ramped
        then
          print (OpenLoopSoftStartComplete (Py.int current_target_power_percent))
            (upd (set_soft_start_active false)
               (upd (set_current_soft_start_power current_target_power_percent) w))
        else w in
      let w := set_motor_power (current_soft_start_power (app w)) w in
      Done (sleep_ms (config_manager.soft_start_time_step_ms c) w)
  else Done (set_motor_power current_target_power_percent w).

(** The pedal reads above the press threshold. *)
Definition pedal_pressed (pedal_value : Z) (w : World) : Outcome World :=
  let w :=
    if is_pedal_pressed (app w) then w
    else
      let w := upd (set_is_pedal_pressed true) w in
      let w := upd (set_soft_start_active true) w in
      let w := upd (set_current_soft_start_power 0) w in
      let w :=
        match pid_controller (app w) with
        | Some pid =>
            if config_manager.pid_enabled (config w)
            then upd (set_pid_controller
                        (Some (set_soft_start_setpoint 0
                                 (reset pid (ticks_ms w))))) w
            else w
        | None => w
        end in
      print PedalPressed w in
  let c := config w in
  let w :=
    upd (set_target_rpm_setpoint
           (get_target_rpm_from_pedal pedal_value
              (config_manager.max_rpm_setting c)
              (config_manager.max_motor_rpm c))) w in
  if config_manager.pid_enabled c
  then pid_control_path w
  else open_loop_path pedal_value w.

(** The stop sequence. *)
Definition stop_power : Q := 5.

Definition stops_down (c : config_manager.Config) : bool :=
  String.eqb (config_manager.stop_position_default c) "DOWN".

Definition target_position_name (c : config_manager.Config) : string :=
  if stops_down c then "DOWN"%string else "UP"%string.

(** The sensor function chosen for the stop: [get_needle_down_status]
    when [down], [get_needle_up_status] otherwise. *)
Definition target_sensor_func (down : bool) (w : World) : bool :=
  if down
  then sensor_manager.get_needle_down_status (sensors w)
  else sensor_manager.get_needle_up_status (sensors w).

(** One poll: the body of the stop loop. *)
Definition stop_poll (w : World) : World :=
  let '(w1, rpm) := calculate_rpm w in
  let w2 := upd (set_last_rpm rpm) w1 in
  sleep_ms 50 w2.

Fixpoint stop_loop (fuel : nat) (down : bool) (stop_timeout : Z) (w : World)
  : Outcome World :=
  if negb (target_sensor_func down w)
     && (utime.ticks_diff (ticks_ms w) stop_timeout <? 0)
  then
    match fuel with
    | O => OutOfFuel
    | S fuel' => stop_loop fuel' down stop_timeout (stop_poll w)
    end
  else Done w.

Definition needle_stop (fuel : nat) (w : World) : Outcome World :=
  let w := set_motor_power stop_power w in
  let down := stops_down (config w) in
  let name := target_position_name (config w) in
  let w := print (StoppingAt name) w in
  let stop_timeout := ticks_ms w + 5000 in
  w <- stop_loop fuel down stop_timeout w ;;
  let w := set_motor_power 0 w in
  if target_sensor_func down w
  then Done (print (NeedleStopped name) w)
  else Done (print (NeedleStopTimedOut name) w).

(** The pedal reads at or below the press threshold. *)
Definition pedal_released (fuel : nat) (w : World) : Outcome World :=
  if is_pedal_pressed (app w) then
    let w := upd (set_is_pedal_pressed false) w in
    let w := upd (set_soft_start_active false) w in
    let w :=
      match pid_controller (app w) with
      | Some pid => upd (set_pid_controller (Some (reset pid (ticks_ms w)))) w
      | None => w
      end in
    let w := print PedalReleased w in
    needle_stop fuel w
  else Done (set_motor_power 0 w).

(** One pass of the [while True] body; [fuel] bounds the polls of the
    stop sequence. *)
Definition main_loop_iter (fuel : nat) (w : World) : Outcome World :=
  let '(w, rpm) := calculate_rpm w in
  let w := upd (set_last_rpm rpm) w in
  if max_rpm_calibration_active (app w) then
    Done (sleep_ms 100 (set_motor_power 0 w))
  else if autotune_active (app w) then
    Done (sleep_ms 100 (set_motor_power 0 w))
  else
    let w := pid_reinit_check w in
    let pedal_value := read_foot_pedal (motor w) in
    w <- (if 1000 <? pedal_value
          then pedal_pressed pedal_value w
          else pedal_released fuel w) ;;
    Done (sleep_ms 20 w).

(** [n] passes of the main loop. *)
Fixpoint main_loop (n fuel : nat) (w : World) : Outcome World :=
  match n with
  | O => Done w
  | S n' => w <- main_loop_iter fuel w ;; main_loop n' fuel w
  end.

End Tasks.

(** The parameters of the routine, fixed when its loop starts. *)
Definition same_params (l l' : AutotuneLocals) : Prop :=
  autotune_target_rpm l' = autotune_target_rpm l
  /\ autotune_power_high l' = autotune_power_high l
  /\ autotune_power_low l' = autotune_power_low l
  /\ autotune_start_time l' = autotune_start_time l
  /\ tuning_timeout l' = tuning_timeout l.

(** The swing between the tracked extremes exceeds a tenth of the target. *)
Definition sufficient_swing (l : AutotuneLocals) : Prop :=
  (autotune_target_rpm l * (1 # 10)
   < inject_Z (max_rpm_in_oscillation l - min_rpm_in_oscillation l))%Q.

(** The state right after the completion branch, for a routine that was
    started with configuration [c]. *)
Definition completed (c : config_manager.Config) (l : AutotuneLocals)
           (w : World) : Prop :=
  sufficient_swing l
  /\ config w
     = config_manager.set_gains (Py.round3 (kp_zn l)) (Py.round3 (ki_zn l))
         (Py.round3 (kd_zn l)) true c
  /\ autotune_stage (app w) = 2
  /\ autotune_active (app w) = false
  /\ motor_power_percent (motor w) = 0%Q
  /\ commanded_off (motor w).

(** Every suspension ends within 2^28 ms (some three days) of its due time. *)
Definition timely (env : nat -> Event) : Prop :=
  forall k, Z.of_N (overrun_ms (env k)) < 2 ^ 28.

(** Nobody posts [/stop_operations]. *)
Definition undisturbed (env : nat -> Event) : Prop :=
  forall k, stop_operations (env k) = false.

(** The soft-start ramp of the active control mode: the controller's
    [_soft_start_current_setpoint] with PID, [current_soft_start_power]
    without. *)
Definition ramp_value (w : World) : Q :=
  if config_manager.pid_enabled (config w) then
    match pid_controller (app w) with
    | Some pid => _soft_start_current_setpoint pid
    | None => 0
    end
  else current_soft_start_power (app w).

(** The target the ramp is compared with on a tick: the target RPM with PID,
    the target power without. *)
Definition ramp_target (pedal_value : Z) (c : config_manager.Config) : Q :=
  if config_manager.pid_enabled c
  then get_target_rpm_from_pedal pedal_value (config_manager.max_rpm_setting c)
         (config_manager.max_motor_rpm c)
  else open_loop_target pedal_value c.

(** What a tick adds to the ramp: [max_rpm_setting / soft_start_ramp_steps]
    with PID, target power [/ soft_start_ramp_steps] without. *)
Definition ramp_increment (pedal_value : Z) (c : config_manager.Config) : Q :=
  if config_manager.pid_enabled c
  then (config_manager.max_rpm_setting c
        / config_manager.soft_start_ramp_steps c)%Q
  else (open_loop_target pedal_value c
        / config_manager.soft_start_ramp_steps c)%Q.





(** The pin of the chosen position sensor stays high (inactive). *)
Definition never_asserts (down : bool) (env : nat -> Event) : Prop :=
  forall k,
    (if down then needle_down_level (env k) else needle_up_level (env k)) = true.

End main.

(** ** [web_server.py]: the routes that write the globals of [main.py] *)

Module web_server.

Import main.



(** [POST /stop_operations]. *)
Definition stop_operations_web (w : World) : World * Z :=
  (main.stop_operations_web w, 200).





(** What [set_param] does to [main.py] after it stored one of [kp], [ki],
    [kd], [pid_enabled]: [main_app.last_pid_kp = None]. *)
Definition invalidate_pid_cache (w : World) : World :=
  upd (fun g => set_last_pid None (last_pid_ki g) (last_pid_kd g) g) w.

End web_server.

(** ** Concrete devices and environments used below *)

Module Scenario.

Import main.

(** The device after [init_motor_control] and [init_sensors], both position
    pins high (inactive), the pedal at rest, the default configuration. *)
Definition booted : World :=
  mkWorld 1000 0
    (sensor_manager.init_sensors 1000 true true sensor_manager.initial)
    (motor_control.init_motor_control 0 motor_control.initial)
    config_manager.DEFAULT_CONFIG
    initial_globals
    [].

(** The operator posted [/calibrate_max_rpm]. *)
Definition calibrating : World :=
  upd (set_max_rpm_calibration_active true) booted.

(** The shaft turns at 18000 RPM: 30 pulses in every 100 ms. *)
Definition spinning (k : nat) : Event := mkEvent 0 30 true true 0 false.

(** Nothing moves and nobody touches the device. *)
Definition still (k : nat) : Event := mkEvent 0 0 true true 0 false.

(** The pedal was pressed and the motor runs (open loop, soft start done). *)
Definition running : World :=
  upd (set_is_pedal_pressed true) booted.



(** A device at rest whose PID controller has been built. *)
Definition tuning : World :=
  upd (set_pid_controller
         (Some (motor_control.PID_init (1 # 2) (1 # 100) (1 # 20) 1000)))
      booted.

(** One pulse in every sleep, every third sleep 10 ms late: the RPM samples
    alternate between 1200 and 1000. *)
Definition wobbling (k : nat) : Event :=
  mkEvent (if Nat.eqb (Nat.modulo k 3) 1 then 10 else 0) 1 true true 0 false.

(** The pedal is held fully down. *)
Definition pressing (k : nat) : Event := mkEvent 0 0 true true 65535 false.


(** A controller with a non-zero previous error, asked again in the same
    millisecond. *)
Definition pid_mid_run : motor_control.PID :=
  motor_control.mkPID 1 0 0 (-20) 7 123456 0.

(** The shaft turns slowly and the operator posts [/stop_operations] during
    the fourth suspension. *)
Definition interrupted (k : nat) : Event :=
  mkEvent 0 1 true true 0 (Nat.eqb k 3).

End Scenario.

(** * Properties *)

(** ** Facts about the numeric built-ins and the tick ring *)

Module PyFacts.

Lemma Qlt_bool_iff (a b : Q) : Py.Qlt_bool a b = true <-> (a < b)%Q.
Proof.
  unfold Py.Qlt_bool. rewrite negb_true_iff.
  destruct (Qle_bool b a) eqn:E.
  - apply Qle_bool_iff in E. split; [discriminate | intro H].
    exfalso. apply (Qlt_not_le _ _ H E).
  - split; [intros _ | reflexivity].
    apply Qnot_le_lt. intro H. apply Qle_bool_iff in H. congruence.
Qed.

Lemma Qlt_bool_false_iff (a b : Q) : Py.Qlt_bool a b = false <-> (b <= a)%Q.
Proof.
  unfold Py.Qlt_bool. rewrite negb_false_iff. apply Qle_bool_iff.
Qed.

Lemma min_cases (a b : Q) :
  ((b < a)%Q /\ Py.min a b = b) \/ ((a <= b)%Q /\ Py.min a b = a).
Proof.
  unfold Py.min. destruct (Py.Qlt_bool b a) eqn:E.
  - left. split; [now apply Qlt_bool_iff | reflexivity].
  - right. split; [now apply Qlt_bool_false_iff | reflexivity].
Qed.

Lemma max_cases (a b : Q) :
  ((a < b)%Q /\ Py.max a b = b) \/ ((b <= a)%Q /\ Py.max a b = a).
Proof.
  unfold Py.max. destruct (Py.Qlt_bool a b) eqn:E.
  - left. split; [now apply Qlt_bool_iff | reflexivity].
  - right. split; [now apply Qlt_bool_false_iff | reflexivity].
Qed.

(** [max(lo, min(hi, x))] lands in [[lo, hi]] and is the identity there. *)
Lemma clamp_bounds (lo hi x : Q) :
  (lo <= hi)%Q -> (lo <= Py.max lo (Py.min hi x) <= hi)%Q.
Proof.
  intro H.
  destruct (min_cases hi x) as [[H1 ->] | [H1 ->]];
    [destruct (max_cases lo x) as [[H2 ->] | [H2 ->]]
    | destruct (max_cases lo hi) as [[H2 ->] | [H2 ->]]];
    split; lra.
Qed.

Lemma clamp_inside (lo hi x : Q) :
  (lo <= x <= hi)%Q -> (Py.max lo (Py.min hi x) == x)%Q.
Proof.
  intros [Hl Hh].
  destruct (min_cases hi x) as [[H1 ->] | [H1 ->]];
    [destruct (max_cases lo x) as [[H2 ->] | [H2 ->]]
    | destruct (max_cases lo hi) as [[H2 ->] | [H2 ->]]];
    lra.
Qed.

Lemma clamp_mono (lo hi x y : Q) :
  (lo <= hi)%Q -> (x <= y)%Q ->
  (Py.max lo (Py.min hi x) <= Py.max lo (Py.min hi y))%Q.
Proof.
  intros H Hxy.
  destruct (min_cases hi x) as [[H1 ->] | [H1 ->]];
    destruct (min_cases hi y) as [[H2 ->] | [H2 ->]];
    match goal with
    | |- (Py.max ?a ?b <= Py.max ?c ?d)%Q =>
        destruct (max_cases a b) as [[H3 E3] | [H3 E3]];
        destruct (max_cases c d) as [[H4 E4] | [H4 E4]];
        rewrite E3, ?E4
    end; lra.
Qed.

(** On non-negative rationals truncation is the floor. *)
Lemma int_floor (x : Q) : (0 <= x)%Q -> Py.int x = Qfloor x.
Proof.
  intro H. destruct x as [n d]. unfold Py.int, Qfloor. simpl.
  apply Z.quot_div_nonneg; [| lia].
  unfold Qle in H. simpl in H. lia.
Qed.

Lemma int_bounds (x : Q) :
  (0 <= x)%Q -> (inject_Z (Py.int x) <= x < inject_Z (Py.int x + 1))%Q.
Proof.
  intro H. rewrite (int_floor x H). split; [apply Qfloor_le | apply Qlt_floor].
Qed.

Lemma int_mono (x y : Q) : (0 <= x)%Q -> (x <= y)%Q -> Py.int x <= Py.int y.
Proof.
  intros Hx Hxy. rewrite (int_floor x Hx), (int_floor y) by lra.
  now apply Qfloor_resp_le.
Qed.

Lemma int_nonneg (x : Q) : (0 <= x)%Q -> 0 <= Py.int x.
Proof.
  intro H. rewrite (int_floor x H).
  change 0 with (Qfloor 0). now apply Qfloor_resp_le.
Qed.

Lemma inject_Z_le (a b : Z) : a <= b -> (inject_Z a <= inject_Z b)%Q.
Proof. intro H. now rewrite <- Zle_Qle. Qed.




End PyFacts.

Module TickFacts.

Import utime.

Lemma ticks_diff_small (a b d : Z) :
  a mod TICKS_PERIOD = (b + d) mod TICKS_PERIOD ->
  - TICKS_HALF <= d < TICKS_HALF ->
  ticks_diff a b = d.
Proof.
  unfold ticks_diff, TICKS_PERIOD, TICKS_HALF. intros E H.
  assert (Hm : (a - b + 2 ^ 29) mod 2 ^ 30 = (d + 2 ^ 29) mod 2 ^ 30).
  { rewrite <- Zplus_mod_idemp_l, <- Zminus_mod_idemp_l, E.
    rewrite Zminus_mod_idemp_l, Zplus_mod_idemp_l. f_equal. lia. }
  rewrite Hm, Z.mod_small; lia.
Qed.

Lemma ticks_diff_same (t : Z) : ticks_diff t t = 0.
Proof. apply ticks_diff_small; [f_equal; lia | unfold TICKS_HALF; lia]. Qed.

(** Reading the counter [d] ms after a reading [wrap t], against a deadline
    [k] ms after that reading. *)
Lemma ticks_diff_deadline (t d k : Z) :
  - TICKS_HALF <= d - k < TICKS_HALF ->
  ticks_diff (wrap (t + d)) (wrap t + k) = d - k.
Proof.
  intro H. apply ticks_diff_small; [| exact H].
  unfold wrap. rewrite Z.mod_mod by (unfold TICKS_PERIOD; lia).
  replace (t mod TICKS_PERIOD + k + (d - k)) with (t mod TICKS_PERIOD + d) by lia.
  now rewrite Zplus_mod_idemp_l.
Qed.

End TickFacts.

(** ** [motor_control.py]: power mapping, pedal mapping, PID *)

Module MotorControlSpec.

Import motor_control.

Lemma clamp_percent_bounds (percent : Q) : (0 <= clamp_percent percent <= 100)%Q.
Proof. apply PyFacts.clamp_bounds. lra. Qed.

Lemma calculated_delay_linear (p : Q) :
  (calculated_delay p == 500 + 93 * (100 - p))%Q.
Proof.
  unfold calculated_delay. unfold Qdiv.
  change (inject_Z min_fire_delay_us) with 500%Q.
  change (inject_Z (max_effective_delay_us - min_fire_delay_us)) with 9300%Q.
  change (/ 100)%Q with (1 # 100)%Q. lra.
Qed.

Lemma power_off (percent : Q) (s : State) :
  (clamp_percent percent <= 5)%Q ->
  set_motor_power percent s =
  mkState (clamp_percent percent) off_delay_us
          (gate_write false (triac_gate_pin s))
          (foot_pedal_adc s) (last_zero_cross_time_us s).
Proof.
  intro H. unfold set_motor_power.
  apply Qle_bool_iff in H. now rewrite H.
Qed.

Lemma power_on (percent : Q) (s : State) :
  (5 < clamp_percent percent)%Q ->
  set_motor_power percent s =
  mkState (clamp_percent percent)
          (Py.int (calculated_delay (clamp_percent percent)))
          (triac_gate_pin s) (foot_pedal_adc s) (last_zero_cross_time_us s).
Proof.
  intro H. unfold set_motor_power.
  destruct (Qle_bool (clamp_percent percent) 5) eqn:E; [| reflexivity].
  apply Qle_bool_iff in E. lra.
Qed.

Lemma on_delay_range (p : Q) :
  (5 < p <= 100)%Q ->
  min_fire_delay_us <= Py.int (calculated_delay p) <= max_effective_delay_us.
Proof.
  intros [Hl Hh].
  pose proof (calculated_delay_linear p) as E.
  assert (H0 : (0 <= calculated_delay p)%Q) by lra.
  split.
  - change min_fire_delay_us with (Py.int 500).
    apply PyFacts.int_mono; lra.
  - change max_effective_delay_us with (Py.int 9800).
    apply PyFacts.int_mono; lra.
Qed.





(** *** [PID.update] with no time elapsed *)

Lemma update_zero_dt (self : PID) (now : Z) (setpoint current_value : Q) :
  utime.ticks_diff now (_last_time self) = 0 ->
  update self now setpoint current_value = (self, _prev_error self).
Proof. intro H. unfold update. rewrite H. reflexivity. Qed.

(** C8.  When no time elapsed since the previous call, [update] returns the
    stored previous error and the controller it leaves is the one it was
    given, field for field; hence a second call with the same arguments
    returns the same value again. *)
Theorem pid_update_zero_elapsed
        (self : PID) (now : Z) (setpoint current_value : Q) :
  utime.ticks_diff now (_last_time self) = 0 ->
  let '(self1, out1) := update self now setpoint current_value in
  let '(self2, out2) := update self1 now setpoint current_value in
  out1 = _prev_error self /\ self1 = self /\ out2 = out1 /\ self2 = self.
Proof.
  intro H. rewrite (update_zero_dt self now setpoint current_value H).
  rewrite (update_zero_dt self now setpoint current_value H).
  repeat split.
Qed.


Lemma pid_update_zero_elapsed_witness :
  update Scenario.pid_mid_run 123456 100 80 = (Scenario.pid_mid_run, (-20)%Q).
Proof.
  pose proof (pid_update_zero_elapsed Scenario.pid_mid_run 123456 100 80
                ltac:(reflexivity)) as H.
  destruct (update Scenario.pid_mid_run 123456 100 80) as [self1 out1].
  destruct (update self1 123456 100 80) as [self2 out2].
  destruct H as (E1 & E2 & _). now rewrite E1, E2.
Defined.

(** *** [get_target_rpm_from_pedal] *)


Lemma normalized_bounds (pedal_value : Z) : (0 <= normalized pedal_value <= 1)%Q.
Proof. apply PyFacts.clamp_bounds. lra. Qed.

Lemma normalized_mono (p1 p2 : Z) :
  p1 <= p2 -> (normalized p1 <= normalized p2)%Q.
Proof.
  intro H. apply PyFacts.clamp_mono; [lra |].
  unfold Qdiv. apply Qmult_le_compat_r.
  - apply PyFacts.inject_Z_le. lia.
  - discriminate.
Qed.

Lemma target_rpm_pressed (pedal_value : Z) (max_rpm_setting max_motor_rpm : Q) :
  1000 <= pedal_value ->
  get_target_rpm_from_pedal pedal_value max_rpm_setting max_motor_rpm =
  Py.min (inject_Z (Py.int (normalized pedal_value * max_rpm_setting)))
         max_motor_rpm.
Proof.
  intro H. unfold get_target_rpm_from_pedal.
  destruct (pedal_value <? 1000) eqn:E; [apply Z.ltb_lt in E; lia | reflexivity].
Qed.

Lemma scaled_bounds (pedal_value : Z) (max_rpm_setting : Q) :
  (0 <= max_rpm_setting)%Q ->
  (0 <= normalized pedal_value * max_rpm_setting <= max_rpm_setting)%Q.
Proof.
  intro H. destruct (normalized_bounds pedal_value) as [H0 H1]. split.
  - now apply Qmult_le_0_compat.
  - rewrite <- (Qmult_1_l max_rpm_setting) at 2.
    now apply Qmult_le_compat_r.
Qed.

Lemma target_rpm_range (pedal_value : Z) (max_rpm_setting max_motor_rpm : Q) :
  (0 <= max_rpm_setting)%Q -> (0 <= max_motor_rpm)%Q ->
  let r := get_target_rpm_from_pedal pedal_value max_rpm_setting max_motor_rpm in
  (0 <= r)%Q /\ (r <= max_rpm_setting)%Q /\ (r <= max_motor_rpm)%Q.
Proof.
  intros Hs Hm r. unfold r, get_target_rpm_from_pedal.
  destruct (pedal_value <? 1000); [repeat split; lra |].
  fold (normalized pedal_value).
  destruct (scaled_bounds pedal_value max_rpm_setting Hs) as [H0 H1].
  destruct (PyFacts.int_bounds _ H0) as [Hi _].
  pose proof (PyFacts.inject_Z_le _ _ (PyFacts.int_nonneg _ H0)) as Hn.
  change (inject_Z 0) with 0%Q in Hn.
  match goal with
  | |- context [Py.min ?a ?b] =>
      destruct (PyFacts.min_cases a b) as [[Hc ->] | [Hc ->]]
  end; repeat split; lra.
Qed.

Lemma target_rpm_mono (p1 p2 : Z) (max_rpm_setting max_motor_rpm : Q) :
  (0 <= max_rpm_setting)%Q -> (0 <= max_motor_rpm)%Q -> p1 <= p2 ->
  (get_target_rpm_from_pedal p1 max_rpm_setting max_motor_rpm
   <= get_target_rpm_from_pedal p2 max_rpm_setting max_motor_rpm)%Q.
Proof.
  intros Hs Hm H.
  destruct (Z.lt_ge_cases p1 1000) as [L1 | G1].
  - unfold get_target_rpm_from_pedal at 1.
    apply Z.ltb_lt in L1. rewrite L1.
    apply (target_rpm_range p2 max_rpm_setting max_motor_rpm Hs Hm).
  - rewrite !target_rpm_pressed by lia.
    destruct (scaled_bounds p1 max_rpm_setting Hs) as [H0 _].
    assert (Hi : (inject_Z (Py.int (normalized p1 * max_rpm_setting))
                  <= inject_Z (Py.int (normalized p2 * max_rpm_setting)))%Q).
    { apply PyFacts.inject_Z_le, PyFacts.int_mono; [exact H0 |].
      apply Qmult_le_compat_r; [now apply normalized_mono | exact Hs]. }
    match goal with
    | |- (Py.min ?a ?b <= Py.min ?c ?d)%Q =>
        destruct (PyFacts.min_cases a b) as [[Ha Ea] | [Ha Ea]];
        destruct (PyFacts.min_cases c d) as [[Hc Ec] | [Hc Ec]];
        rewrite Ea, Ec
    end; lra.
Qed.

(** C10.  With non-negative [max_rpm_setting] and [max_motor_rpm]: below
    the dead-zone threshold (a pedal reading under 1000) the target is 0;
    at or above it the target lies between 0 and the smaller of the two
    limits; and the target never falls when the pedal reading grows. *)
Theorem pedal_target_rpm_range_and_monotone (max_rpm_setting max_motor_rpm : Q) :
  (0 <= max_rpm_setting)%Q -> (0 <= max_motor_rpm)%Q ->
  (forall pedal_value : Z,
      pedal_value < 1000 ->
      get_target_rpm_from_pedal pedal_value max_rpm_setting max_motor_rpm = 0%Q)
  /\ (forall pedal_value : Z,
         1000 <= pedal_value ->
         let r := get_target_rpm_from_pedal pedal_value max_rpm_setting
                                             max_motor_rpm in
         (0 <= r <= Py.min max_rpm_setting max_motor_rpm)%Q)
  /\ (forall p1 p2 : Z,
         p1 <= p2 ->
         (get_target_rpm_from_pedal p1 max_rpm_setting max_motor_rpm
          <= get_target_rpm_from_pedal p2 max_rpm_setting max_motor_rpm)%Q).
Proof.
  intros Hs Hm. split; [| split].
  - intros pedal_value H. unfold get_target_rpm_from_pedal.
    apply Z.ltb_lt in H. now rewrite H.
  - intros pedal_value _ r.
    destruct (target_rpm_range pedal_value max_rpm_setting max_motor_rpm Hs Hm)
      as (H0 & H1 & H2). fold r in H0, H1, H2.
    split; [exact H0 |].
    destruct (PyFacts.min_cases max_rpm_setting max_motor_rpm)
      as [[_ ->] | [_ ->]]; assumption.
  - intros p1 p2 H. now apply target_rpm_mono.
Qed.

(** The default limits (500 and 2000 RPM): released, half way and floored. *)
Lemma pedal_target_rpm_range_and_monotone_witness :
  get_target_rpm_from_pedal 999 500 2000 = 0%Q
  /\ (0 <= get_target_rpm_from_pedal 33268 500 2000 <= Py.min 500 2000)%Q
  /\ (get_target_rpm_from_pedal 33268 500 2000
      <= get_target_rpm_from_pedal 65535 500 2000)%Q.
Proof.
  destruct (pedal_target_rpm_range_and_monotone 500 2000
              ltac:(discriminate) ltac:(discriminate)) as (H1 & H2 & H3).
  split; [apply H1; reflexivity |].
  split; [apply (H2 33268); discriminate | apply H3; discriminate].
Defined.

End MotorControlSpec.

(** ** [sensor_manager.py]: the RPM window *)

Module SensorSpec.

Import sensor_manager.





End SensorSpec.

(** ** [main.py]: facts about the world model *)

Module WorldFacts.

Import main.

Section WithEnv.

Variable env : nat -> Event.

Lemma ticks_ms_set_motor_power (p : Q) (w : World) :
  ticks_ms (set_motor_power p w) = ticks_ms w.
Proof. reflexivity. Qed.

Lemma sleep_ms_uptime (n : Z) (w : World) :
  uptime_ms (sleep_ms env n w)
  = uptime_ms w + Z.max 0 n + Z.of_N (overrun_ms (env (awaits w))).
Proof.
  unfold sleep_ms, happen.
  destruct (stop_operations (env (awaits w))); simpl; lia.
Qed.

Lemma sleep_ms_awaits (n : Z) (w : World) :
  awaits (sleep_ms env n w) = S (awaits w).
Proof.
  unfold sleep_ms, happen.
  now destruct (stop_operations (env (awaits w))).
Qed.

Lemma sleep_ms_config (n : Z) (w : World) :
  config (sleep_ms env n w) = config w.
Proof.
  unfold sleep_ms, happen.
  now destruct (stop_operations (env (awaits w))).
Qed.

Lemma sleep_ms_console (n : Z) (w : World) :
  console (sleep_ms env n w) = console w.
Proof.
  unfold sleep_ms, happen.
  now destruct (stop_operations (env (awaits w))).
Qed.

Lemma calculate_rpm_frame (w : World) :
  let w' := fst (calculate_rpm w) in
  uptime_ms w' = uptime_ms w /\ awaits w' = awaits w /\ motor w' = motor w
  /\ config w' = config w /\ app w' = app w /\ console w' = console w
  /\ sensor_manager.needle_up_sensor (sensors w')
     = sensor_manager.needle_up_sensor (sensors w)
  /\ sensor_manager.needle_down_sensor (sensors w')
     = sensor_manager.needle_down_sensor (sensors w).
Proof.
  unfold calculate_rpm.
  unfold sensor_manager.calculate_rpm.
  destruct (0 <? _); simpl; repeat split.
Qed.

(** The calibration loop, entered in the millisecond its start time was
    taken, does not run its body. *)
Lemma calibration_loop_skipped (fuel : nat) (max_observed_rpm : Z) (w : World) :
  calibration_loop env fuel (ticks_ms w) max_observed_rpm w
  = Done (max_observed_rpm, w).
Proof.
  destruct fuel; simpl; now rewrite TickFacts.ticks_diff_same.
Qed.

End WithEnv.

End WorldFacts.

(** ** [run_max_rpm_calibration] *)

Module CalibrationSpec.

Import main.

(** However long after taking [start_time] the loop condition reads the
    counter -- within half a tick period -- the elapsed time is not
    negative, so the condition [ticks_diff(now, start_time) < 0] is false. *)
Lemma calibration_condition_false (t d : Z) :
  0 <= d < utime.TICKS_HALF ->
  (utime.ticks_diff (utime.wrap (t + d)) (utime.wrap t) <? 0) = false.
Proof.
  intro H. apply Z.ltb_ge.
  replace (utime.wrap t) with (utime.wrap t + 0) by lia.
  rewrite TickFacts.ticks_diff_deadline; lia.
Qed.

(** An active calibration takes no sample and passes no time: it commands
    full power, finds its loop condition false, commands power 0 and writes
    the initial maximum, 0, into [max_motor_rpm]. *)
Lemma calibration_writes_initial_maximum
      (env : nat -> Event) (fuel : nat) (w : World) :
  max_rpm_calibration_active (app w) = true ->
  run_max_rpm_calibration env fuel w =
  Done (upd (set_max_rpm_calibration_active false)
          (print (MaxRpmCalibrationComplete 0)
             (with_config (config_manager.set_max_motor_rpm 0 (config w))
                (set_motor_power 0
                   (set_motor_power 100
                      (print MaxRpmCalibrationInitiated w)))))).
Proof.
  intro H. unfold run_max_rpm_calibration.
  rewrite WorldFacts.calibration_loop_skipped. simpl. rewrite H. reflexivity.
Qed.

(** C1 (the code at a failing input).  Calibration is active and the shaft
    turns at 18000 RPM whenever it is sampled.  The routine returns at once:
    no suspension, no time passed, no sample printed, and the value written
    to [max_motor_rpm] is 0 -- while a sample taken 100 ms later would have
    read 18000.  The loop condition [ticks_diff(now, start_time) < 0] is
    false however long after [start_time] the counter is read, up to half a
    tick period. *)
Theorem calibration_at_full_speed_writes_zero :
  exists w',
    run_max_rpm_calibration Scenario.spinning 50 Scenario.calibrating = Done w'
    /\ config_manager.max_motor_rpm (config w') = 0%Q
    /\ awaits w' = awaits Scenario.calibrating
    /\ uptime_ms w' = uptime_ms Scenario.calibrating
    /\ console w' = [MaxRpmCalibrationComplete 0; MaxRpmCalibrationInitiated]
    /\ motor_control.motor_power_percent (motor w') = 0%Q
    /\ max_rpm_calibration_active (app w') = false
    /\ snd (calculate_rpm
              (sleep_ms Scenario.spinning 100
                 (set_motor_power 100 Scenario.calibrating))) = 18000
    /\ (forall t d : Z,
           0 <= d < utime.TICKS_HALF ->
           (utime.ticks_diff (utime.wrap (t + d)) (utime.wrap t) <? 0) = false).
Proof.
  eexists. split.
  - apply calibration_writes_initial_maximum. reflexivity.
  - do 7 (split; [reflexivity |]). exact calibration_condition_false.
Qed.

End CalibrationSpec.

(** ** The needle stop sequence *)

Module StopSpec.

Import motor_control.
Import main.

Lemma set_motor_power_dead_zone (p : Q) (m : motor_control.State) :
  (clamp_percent p <= 5)%Q ->
  commanded_off (motor_control.set_motor_power p m).
Proof.
  intro H. rewrite (MotorControlSpec.power_off p m H). split; simpl.
  - reflexivity.
  - destruct (triac_gate_pin m); simpl; congruence.
Qed.

Lemma set_pedal_commanded_off (v : Z) (m : motor_control.State) :
  commanded_off m -> commanded_off (set_pedal v m).
Proof. intros [H1 H2]. split; assumption. Qed.

Section WithEnv.

Variable env : nat -> Event.

Lemma sleep_ms_commanded_off (n : Z) (w : World) :
  commanded_off (motor w) -> commanded_off (motor (sleep_ms env n w)).
Proof.
  intro H. unfold sleep_ms, happen.
  destruct (stop_operations (env (awaits w))); simpl.
  - apply set_motor_power_dead_zone. discriminate.
  - now apply set_pedal_commanded_off.
Qed.

Lemma sleep_ms_sensors (n : Z) (w : World) :
  sensors (sleep_ms env n w)
  = sensor_manager.set_levels (needle_up_level (env (awaits w)))
      (needle_down_level (env (awaits w)))
      (sensor_manager.add_pulses (Z.of_N (new_pulses (env (awaits w))))
         (sensors w)).
Proof.
  unfold sleep_ms, happen.
  now destruct (stop_operations (env (awaits w))).
Qed.

Lemma stop_poll_frame (w : World) :
  let w' := stop_poll env w in
  uptime_ms w' = uptime_ms w + 50 + Z.of_N (overrun_ms (env (awaits w)))
  /\ awaits w' = S (awaits w)
  /\ config w' = config w
  /\ console w' = console w
  /\ (commanded_off (motor w) -> commanded_off (motor w')).
Proof.
  unfold stop_poll.
  pose proof (WorldFacts.calculate_rpm_frame w) as F.
  destruct (calculate_rpm w) as [w1 rpm]. simpl in F.
  destruct F as (Fu & Fa & Fm & Fc & _ & Fo & _).
  rewrite WorldFacts.sleep_ms_uptime, WorldFacts.sleep_ms_awaits,
    WorldFacts.sleep_ms_config, WorldFacts.sleep_ms_console.
  simpl. rewrite Fu, Fa, Fc, Fo.
  split; [lia |]. split; [reflexivity |]. split; [reflexivity |].
  split; [reflexivity |].
  intro H. apply sleep_ms_commanded_off. simpl. now rewrite Fm.
Qed.

(** After a poll the chosen sensor reads what the pin level of the event
    says (active low), if the sensor was initialised. *)
Lemma stop_poll_sensor (down : bool) (w : World) :
  (if down then needle_down_level (env (awaits w))
   else needle_up_level (env (awaits w))) = true ->
  target_sensor_func down (stop_poll env w) = false.
Proof.
  intro H. unfold stop_poll.
  pose proof (WorldFacts.calculate_rpm_frame w) as F.
  destruct (calculate_rpm w) as [w1 rpm]. simpl in F.
  destruct F as (_ & Fa & _ & _ & _ & _ & Fu & Fd).
  unfold target_sensor_func. rewrite sleep_ms_sensors. simpl. rewrite Fa.
  unfold sensor_manager.get_needle_down_status,
    sensor_manager.get_needle_up_status. simpl.
  destruct down; rewrite H.
  - now destruct (sensor_manager.needle_down_sensor (sensors w1)).
  - now destruct (sensor_manager.needle_up_sensor (sensors w1)).
Qed.

(** The poll loop ends: each poll takes at least 50 ms, so 100 polls pass
    the 5000 ms deadline, and a timely environment cannot overshoot the
    deadline by half a tick period. *)
Lemma stop_loop_terminates (down : bool) (t0 : Z) :
  timely env ->
  forall (fuel : nat) (w : World),
    0 <= uptime_ms w - t0 < 5000 + 2 ^ 29 ->
    5000 - (uptime_ms w - t0) <= 50 * Z.of_nat fuel ->
    exists w',
      stop_loop env fuel down (utime.wrap t0 + 5000) w = Done w'
      /\ (target_sensor_func down w' = true \/ t0 + 5000 <= uptime_ms w')
      /\ (awaits w' <= awaits w + fuel)%nat
      /\ uptime_ms w <= uptime_ms w'
      /\ config w' = config w
      /\ console w' = console w
      /\ (commanded_off (motor w) -> commanded_off (motor w'))
      /\ (target_sensor_func down w = false -> never_asserts down env ->
          target_sensor_func down w' = false).
Proof.
  intro Ht. induction fuel as [| fuel IH]; intros w He Hf.
  - exists w. simpl.
    replace (ticks_ms w) with (utime.wrap (t0 + (uptime_ms w - t0)))
      by (unfold ticks_ms; f_equal; lia).
    rewrite TickFacts.ticks_diff_deadline
      by (unfold utime.TICKS_HALF; lia).
    replace (uptime_ms w - t0 - 5000 <? 0) with false
      by (symmetry; apply Z.ltb_ge; lia).
    rewrite andb_false_r.
    split; [reflexivity |]. split; [right; lia |].
    split; [lia |]. split; [lia |]. split; [reflexivity |].
    split; [reflexivity |]. split; tauto.
  - simpl.
    replace (ticks_ms w) with (utime.wrap (t0 + (uptime_ms w - t0)))
      by (unfold ticks_ms; f_equal; lia).
    rewrite TickFacts.ticks_diff_deadline
      by (unfold utime.TICKS_HALF; lia).
    destruct (target_sensor_func down w) eqn:Es; simpl.
    { exists w. split; [reflexivity |]. split; [now left |].
      split; [lia |]. split; [lia |]. split; [reflexivity |].
      split; [reflexivity |]. split; [tauto | congruence]. }
    destruct (uptime_ms w - t0 - 5000 <? 0) eqn:Ec.
    2:{ apply Z.ltb_ge in Ec. exists w.
        split; [reflexivity |]. split; [right; lia |].
        split; [lia |]. split; [lia |]. split; [reflexivity |].
        split; [reflexivity |]. split; tauto. }
    apply Z.ltb_lt in Ec.
    destruct (stop_poll_frame w) as (Pu & Pa & Pc & Po & Pm).
    pose proof (Ht (awaits w)) as Hk.
    pose proof (N2Z.is_nonneg (overrun_ms (env (awaits w)))) as Hn.
    destruct (IH (stop_poll env w)) as (w' & R & Q1 & Q2 & Q3 & Q4 & Q5 & Q6 & Q7);
      [lia | lia |].
    exists w'. split; [exact R |].
    split; [exact Q1 |].
    split; [lia |].
    split; [lia |].
    split; [congruence |].
    split; [congruence |].
    split; [tauto |].
    intros _ Hna. apply Q7; [| exact Hna].
    apply stop_poll_sensor. apply Hna.
Qed.

(** The loop's result is the entry state after some number of polls. *)
Lemma stop_loop_polls (down : bool) (timeout : Z) :
  forall (fuel : nat) (w w' : World),
    stop_loop env fuel down timeout w = Done w' ->
    exists j : nat, (j <= fuel)%nat /\ w' = Nat.iter j (stop_poll env) w.
Proof.
  induction fuel as [| fuel IH]; intros w w' H; simpl in H.
  - destruct (negb (target_sensor_func down w)
              && (utime.ticks_diff (ticks_ms w) timeout <? 0));
      [discriminate |].
    exists 0%nat. split; [lia |]. simpl. congruence.
  - destruct (negb (target_sensor_func down w)
              && (utime.ticks_diff (ticks_ms w) timeout <? 0)).
    + destruct (IH _ _ H) as (j & Hj & E).
      exists (S j). split; [lia |].
      rewrite E. symmetry. apply Nat.iter_succ_r.
    + exists 0%nat. split; [lia |]. simpl. congruence.
Qed.

Lemma polls_commanded_off (j : nat) (w : World) :
  commanded_off (motor w) ->
  commanded_off (motor (Nat.iter j (stop_poll env) w)).
Proof.
  intro H. induction j as [| j IH]; simpl; [exact H |].
  now apply stop_poll_frame.
Qed.

End WithEnv.

(** With the motor commanded off the firing task writes the gate low only,
    whenever the zero crossings come. *)
Lemma commanded_off_never_fires (zc_now zc_seen : Z) (m : motor_control.State) :
  commanded_off m ->
  ~ In true (snd (triac_firing_iter zc_seen (zero_cross_isr zc_now m))).
Proof.
  intros [Hd Hg]. unfold triac_firing_iter. simpl. rewrite Hd.
  unfold hold_gate_low. simpl.
  destruct (0 <? utime.ticks_diff zc_now zc_seen); simpl;
    destruct (triac_gate_pin m); simpl; intuition discriminate.
Qed.

(** The world in which the poll loop of the stop sequence is entered. *)
Lemma needle_stop_unfold (env : nat -> Event) (fuel : nat) (w : World) :
  let down := stops_down (config w) in
  let name := target_position_name (config w) in
  let w0 := print (StoppingAt name) (set_motor_power stop_power w) in
  needle_stop env fuel w =
  (w1 <- stop_loop env fuel down (ticks_ms w + 5000) w0 ;;
   Done (print (if target_sensor_func down w1
                then NeedleStopped name else NeedleStopTimedOut name)
               (set_motor_power 0 w1))).
Proof.
  unfold needle_stop. cbv zeta.
  change (config (set_motor_power stop_power w)) with (config w).
  change (ticks_ms (print (StoppingAt (target_position_name (config w)))
                      (set_motor_power stop_power w)))
    with (ticks_ms w).
  destruct (stop_loop env fuel (stops_down (config w)) (ticks_ms w + 5000) _)
    as [w1 | |]; simpl; try reflexivity.
  change (target_sensor_func (stops_down (config w)) (set_motor_power 0 w1))
    with (target_sensor_func (stops_down (config w)) w1).
  now destruct (target_sensor_func (stops_down (config w)) w1).
Qed.

(** C4.  The stop sequence commands the constant creep power 5, which
    [set_motor_power] takes as motor off: the target delay becomes the off
    value beyond the half cycle and the gate is written low.  After any
    number of polls of the sequence the motor is still commanded off, so a
    pass of the TRIAC firing task there never writes the gate high, whenever
    the zero crossings arrive; and the state in which the sequence ends is
    such a state with power 0 commanded on top. *)
Theorem stop_sequence_never_fires
        (env : nat -> Event) (w : World) (polls : nat) (zc_now zc_seen : Z) :
  let name := target_position_name (config w) in
  let w0 := print (StoppingAt name) (set_motor_power stop_power w) in
  let wj := Nat.iter polls (stop_poll env) w0 in
  stop_power = 5%Q
  /\ motor_power_percent (motor w0) = 5%Q
  /\ _target_triac_delay_us (motor w0) = off_delay_us
  /\ ac_half_cycle_time_us < off_delay_us
  /\ triac_gate_pin (motor w0) = gate_write false (triac_gate_pin (motor w))
  /\ commanded_off (motor wj)
  /\ ~ In true (snd (triac_firing_iter zc_seen (zero_cross_isr zc_now (motor wj))))
  /\ (forall (fuel : nat) (w' : World),
         needle_stop env fuel w = Done w' ->
         commanded_off (motor w')
         /\ exists j : nat,
             (j <= fuel)%nat
             /\ motor w' = motor_control.set_motor_power 0
                             (motor (Nat.iter j (stop_poll env) w0))).
Proof.
  intros name w0 wj.
  assert (H0 : commanded_off (motor w0)).
  { unfold w0. simpl. apply set_motor_power_dead_zone. discriminate. }
  assert (Hj : commanded_off (motor wj)) by now apply polls_commanded_off.
  split; [reflexivity |]. split; [reflexivity |]. split; [reflexivity |].
  split; [reflexivity |]. split; [reflexivity |]. split; [exact Hj |].
  split; [now apply commanded_off_never_fires |].
  intros fuel w' H. rewrite needle_stop_unfold in H. fold name w0 in H.
  destruct (stop_loop env fuel (stops_down (config w)) (ticks_ms w + 5000) w0)
    as [w1 | |] eqn:E; simpl in H; try discriminate.
  injection H as <-. simpl. split.
  - apply set_motor_power_dead_zone. discriminate.
  - destruct (stop_loop_polls env _ _ _ _ _ E) as (j & Hle & ->).
    exists j. split; [exact Hle | reflexivity].
Qed.

(** C5.  Released after being pressed, in a timely environment: the stop
    sequence returns within 100 polls.  On return power 0 is commanded and
    the motor is commanded off, and the last line printed is the success
    line when the chosen sensor reads asserted, otherwise the time-out line,
    the latter only once 5000 ms have passed.  If the sensor never asserts,
    the routine returns by the time-out. *)
Theorem stop_sequence_ends_with_power_off (env : nat -> Event) (w : World) :
  timely env ->
  is_pedal_pressed (app w) = true ->
  let down := stops_down (config w) in
  let name := target_position_name (config w) in
  exists w',
    pedal_released env 100 w = Done w'
    /\ (awaits w' <= awaits w + 100)%nat
    /\ motor_power_percent (motor w') = 0%Q
    /\ commanded_off (motor w')
    /\ ((target_sensor_func down w' = true
         /\ console w'
            = NeedleStopped name :: StoppingAt name :: PedalReleased :: console w)
        \/ (target_sensor_func down w' = false
            /\ uptime_ms w + 5000 <= uptime_ms w'
            /\ console w'
               = NeedleStopTimedOut name :: StoppingAt name :: PedalReleased
                 :: console w))
    /\ (target_sensor_func down w = false -> never_asserts down env ->
        uptime_ms w + 5000 <= uptime_ms w'
        /\ console w'
           = NeedleStopTimedOut name :: StoppingAt name :: PedalReleased
             :: console w).
Proof.
  intros Ht Hp down name. unfold pedal_released. rewrite Hp.
  match goal with
  | |- context [needle_stop env 100 ?x] => set (wr := x)
  end.
  assert (Fr : uptime_ms wr = uptime_ms w /\ awaits wr = awaits w
               /\ config wr = config w /\ sensors wr = sensors w
               /\ console wr = PedalReleased :: console w).
  { unfold wr. simpl. destruct (pid_controller (app w)); simpl; repeat split. }
  destruct Fr as (Fu & Fa & Fc & Fs & Fo). clearbody wr.
  rewrite needle_stop_unfold. rewrite Fc. fold down name.
  set (w0 := print (StoppingAt name) (set_motor_power stop_power wr)).
  destruct (stop_loop_terminates env down (uptime_ms wr) Ht 100 w0)
    as (w1 & R & Q1 & Q2 & Q3 & Q4 & Q5 & Q6 & Q7).
  { unfold w0. simpl. lia. }
  { change (uptime_ms w0) with (uptime_ms wr). lia. }
  change (utime.wrap (uptime_ms wr)) with (ticks_ms wr) in R.
  rewrite R. simpl.
  eexists. split; [reflexivity |]. simpl.
  split; [unfold w0 in Q2; simpl in Q2; lia |].
  split; [reflexivity |].
  split; [apply set_motor_power_dead_zone; discriminate |].
  assert (Ec : console w1 = StoppingAt name :: PedalReleased :: console w).
  { rewrite Q5. unfold w0. simpl. now rewrite Fo. }
  assert (Es : forall b m x, target_sensor_func b (print m (set_motor_power x w1))
                             = target_sensor_func b w1) by reflexivity.
  rewrite Es. split.
  - destruct (target_sensor_func down w1) eqn:E1.
    + left. split; [reflexivity | now rewrite Ec].
    + right. split; [reflexivity |].
      split; [| now rewrite Ec].
      destruct Q1 as [Q1 | Q1]; [congruence | lia].
  - intros Hs Hna.
    assert (E1 : target_sensor_func down w1 = false).
    { apply Q7; [| exact Hna]. unfold w0, target_sensor_func. simpl.
      rewrite Fs. exact Hs. }
    rewrite E1. split; [| now rewrite Ec].
    destruct Q1 as [Q1 | Q1]; [congruence | lia].
Qed.

(** The pedal is released on a device whose needle-down pin never goes low:
    the sequence reports the time-out and leaves power 0 commanded. *)
Lemma stop_sequence_ends_with_power_off_witness :
  exists w',
    pedal_released Scenario.still 100 Scenario.running = Done w'
    /\ motor_power_percent (motor w') = 0%Q
    /\ uptime_ms Scenario.running + 5000 <= uptime_ms w'
    /\ console w'
       = [NeedleStopTimedOut "DOWN"; StoppingAt "DOWN"; PedalReleased].
Proof.
  destruct (stop_sequence_ends_with_power_off Scenario.still Scenario.running)
    as (w' & R & _ & P & _ & _ & N).
  - intro k. reflexivity.
  - reflexivity.
  - destruct N as (U & C).
    + reflexivity.
    + intro k. reflexivity.
    + exists w'. repeat split; assumption.
Defined.

End StopSpec.

(** ** Soft start *)

Module SoftStartSpec.

Import motor_control.
Import main.

(** Reduction of the record projections over the setters of the world,
    and of nothing else. *)
Ltac wsimpl_in H :=
  cbn [uptime_ms awaits sensors motor config app console
       with_sensors with_motor with_config with_app print upd set_motor_power
       is_pedal_pressed soft_start_active current_soft_start_power
       target_rpm_setpoint last_rpm pid_controller last_pid_kp last_pid_ki
       last_pid_kd max_rpm_calibration_active autotune_active autotune_stage
       set_is_pedal_pressed set_soft_start_active set_current_soft_start_power
       set_target_rpm_setpoint set_last_rpm set_pid_controller set_last_pid
       set_max_rpm_calibration_active set_autotune_active set_autotune_stage
       _soft_start_current_setpoint set_soft_start_setpoint
       bind fst snd negb] in H.

Ltac wsimpl :=
  cbn [uptime_ms awaits sensors motor config app console
       with_sensors with_motor with_config with_app print upd set_motor_power
       is_pedal_pressed soft_start_active current_soft_start_power
       target_rpm_setpoint last_rpm pid_controller last_pid_kp last_pid_ki
       last_pid_kd max_rpm_calibration_active autotune_active autotune_stage
       set_is_pedal_pressed set_soft_start_active set_current_soft_start_power
       set_target_rpm_setpoint set_last_rpm set_pid_controller set_last_pid
       set_max_rpm_calibration_active set_autotune_active set_autotune_stage
       _soft_start_current_setpoint set_soft_start_setpoint
       bind fst snd negb].

Lemma update_keeps_setpoint (self : PID) (now : Z) (sp cv : Q) :
  _soft_start_current_setpoint (fst (update self now sp cv))
  = _soft_start_current_setpoint self.
Proof. unfold update. now destruct (Qeq_bool _ 0). Qed.

Lemma Qeq_bool_false (x y : Q) : ~ (x == y)%Q -> Qeq_bool x y = false.
Proof.
  intro H. destruct (Qeq_bool x y) eqn:E; [| reflexivity].
  apply Qeq_bool_iff in E. contradiction.
Qed.

Section WithEnv.

Variable env : nat -> Event.

Lemma sleep_ms_app (n : Z) (w : World) :
  let g := app (sleep_ms env n w) in
  soft_start_active g = soft_start_active (app w)
  /\ is_pedal_pressed g = is_pedal_pressed (app w)
  /\ pid_controller g = pid_controller (app w)
  /\ current_soft_start_power g = current_soft_start_power (app w).
Proof.
  unfold sleep_ms, happen.
  destruct (stop_operations (env (awaits w))); simpl; repeat split.
Qed.


(** One soft-start tick of the PID branch. *)
Lemma pid_soft_start_tick (w : World) (pid : PID) :
  soft_start_active (app w) = true ->
  pid_controller (app w) = Some pid ->
  ~ (config_manager.soft_start_ramp_steps (config w) == 0)%Q ->
  let target := target_rpm_setpoint (app w) in
  let ramped :=
    (_soft_start_current_setpoint pid
     + config_manager.max_rpm_setting (config w)
       / config_manager.soft_start_ramp_steps (config w))%Q in
  exists w' pid',
    pid_control_path env w = Done w'
    /\ config w' = config w
    /\ is_pedal_pressed (app w') = is_pedal_pressed (app w)
    /\ pid_controller (app w') = Some pid'
    /\ _soft_start_current_setpoint pid'
       = (if Qle_bool target ramped then target else ramped)
    /\ soft_start_active (app w') = negb (Qle_bool target ramped).
Proof.
  intros Ha Hp Hs target ramped. unfold pid_control_path.
  rewrite Ha, (Qeq_bool_false _ _ Hs), Hp. fold target ramped.
  destruct (Qle_bool target ramped) eqn:E;
    match goal with
    | |- context [update ?p ?t ?s ?c] =>
        pose proof (update_keeps_setpoint p t s c) as K;
        destruct (update p t s c) as [pid2 out]
    end; simpl in K;
    eexists; exists pid2;
    (split; [reflexivity |]);
    rewrite WorldFacts.sleep_ms_config;
    match goal with
    | |- context [sleep_ms env ?n ?x] =>
        destruct (sleep_ms_app n x) as (-> & -> & -> & _)
    end; simpl; rewrite ?Ha; repeat split; assumption.
Qed.

(** One soft-start tick of the open-loop branch. *)
Lemma open_loop_soft_start_tick (pedal_value : Z) (w : World) :
  soft_start_active (app w) = true ->
  ~ (config_manager.soft_start_ramp_steps (config w) == 0)%Q ->
  let target := open_loop_target pedal_value (config w) in
  let ramped :=
    (current_soft_start_power (app w)
     + target / config_manager.soft_start_ramp_steps (config w))%Q in
  exists w',
    open_loop_path env pedal_value w = Done w'
    /\ config w' = config w
    /\ is_pedal_pressed (app w') = is_pedal_pressed (app w)
    /\ current_soft_start_power (app w')
       = (if Qle_bool target ramped then target else ramped)
    /\ soft_start_active (app w') = negb (Qle_bool target ramped).
Proof.
  intros Ha Hs target ramped. unfold open_loop_path.
  rewrite Ha, (Qeq_bool_false _ _ Hs). fold target ramped.
  eexists. split; [reflexivity |].
  rewrite WorldFacts.sleep_ms_config.
  match goal with
  | |- context [sleep_ms env ?n ?x] =>
      destruct (sleep_ms_app n x) as (-> & -> & _ & ->)
  end.
  destruct (Qle_bool target ramped); simpl; rewrite ?Ha; repeat split.
Qed.

Lemma Done_inj (A : Type) (a b : A) : Done a = Done b -> a = b.
Proof. intro H. now injection H. Qed.

(** A pressed tick outside soft start leaves soft start off. *)
Lemma running_tick_stays_running (pedal_value : Z) (w w' : World) :
  is_pedal_pressed (app w) = true ->
  soft_start_active (app w) = false ->
  pedal_pressed env pedal_value w = Done w' ->
  soft_start_active (app w') = false /\ is_pedal_pressed (app w') = true.
Proof.
  intros Hp Ha. unfold pedal_pressed. rewrite Hp.
  destruct (config_manager.pid_enabled (config w)).
  - unfold pid_control_path. wsimpl. rewrite Ha.
    destruct (pid_controller (app w)) as [pid |]; [| discriminate].
    destruct (update pid _ _ _) as [pid2 out].
    intro H. injection H as <-.
    match goal with
    | |- context [sleep_ms env ?n ?x] =>
        destruct (sleep_ms_app n x) as (-> & -> & _ & _)
    end. wsimpl. now rewrite Ha, Hp.
  - unfold open_loop_path. wsimpl. rewrite Ha.
    intro H. injection H as <-. wsimpl. now rewrite Ha, Hp.
Qed.

(** The pressed branch of one tick, in either mode. *)
Lemma pressed_tick (pedal_value : Z) (w : World) :
  is_pedal_pressed (app w) = true ->
  ~ (config_manager.soft_start_ramp_steps (config w) == 0)%Q ->
  (config_manager.pid_enabled (config w) = true ->
   pid_controller (app w) <> None) ->
  let c := config w in
  let steps := config_manager.soft_start_ramp_steps c in
  let target := ramp_target pedal_value c in
  let ramped := (ramp_value w + ramp_increment pedal_value c)%Q in
  exists w',
    pedal_pressed env pedal_value w = Done w'
    /\ config w' = c
    /\ is_pedal_pressed (app w') = true
    /\ (config_manager.pid_enabled c = true ->
        ramp_increment pedal_value c
        = (config_manager.max_rpm_setting c / steps)%Q)
    /\ (config_manager.pid_enabled c = false ->
        ramp_increment pedal_value c = (target / steps)%Q)
    /\ (soft_start_active (app w) = true ->
        ramp_value w' = (if Qle_bool target ramped then target else ramped)
        /\ (ramp_value w' <= target)%Q
        /\ soft_start_active (app w') = negb (Qle_bool target ramped))
    /\ (soft_start_active (app w) = false ->
        soft_start_active (app w') = false).
Proof.
  intros Hp Hs Hpid c steps target ramped.
  assert (Hle : forall a b : Q,
             ((if Qle_bool a b then a else b) <= a)%Q).
  { intros a b. destruct (Qle_bool a b) eqn:E; [lra |].
    apply Qlt_le_weak, Qnot_le_lt. intro A. apply Qle_bool_iff in A. congruence. }
  destruct (soft_start_active (app w)) eqn:Ha.
  - (* soft start *)
    unfold pedal_pressed. rewrite Hp. fold c.
    unfold ramped, target, ramp_value, ramp_target, ramp_increment. fold c.
    destruct (config_manager.pid_enabled c) eqn:Em.
    + destruct (pid_controller (app w)) as [pid |] eqn:Ec;
        [| exfalso; exact (Hpid Em eq_refl)].
      destruct (pid_soft_start_tick
                  (upd (set_target_rpm_setpoint
                          (get_target_rpm_from_pedal pedal_value
                             (config_manager.max_rpm_setting c)
                             (config_manager.max_motor_rpm c))) w) pid)
        as (w' & pid' & R & Fc & Fp & Fq & Fs & Fa); [exact Ha | exact Ec | exact Hs |].
      wsimpl_in R. wsimpl_in Fc. wsimpl_in Fp. wsimpl_in Fq. wsimpl_in Fs. wsimpl_in Fa. fold c in R, Fc, Fs, Fa.
      exists w'. split; [exact R |]. split; [exact Fc |].
      split; [congruence |]. split; [reflexivity |].
      split; [discriminate |]. split; [| discriminate].
      intros _. rewrite Fc. fold c. rewrite Em, Fq, Fs.
      split; [reflexivity |]. split; [apply Hle | exact Fa].
    + destruct (open_loop_soft_start_tick pedal_value
                  (upd (set_target_rpm_setpoint
                          (get_target_rpm_from_pedal pedal_value
                             (config_manager.max_rpm_setting c)
                             (config_manager.max_motor_rpm c))) w))
        as (w' & R & Fc & Fp & Fs & Fa); [exact Ha | exact Hs |].
      wsimpl_in R. wsimpl_in Fc. wsimpl_in Fp. wsimpl_in Fs. wsimpl_in Fa. fold c in R, Fc, Fs, Fa.
      exists w'. split; [exact R |]. split; [exact Fc |].
      split; [congruence |]. split; [discriminate |].
      split; [reflexivity |]. split; [| discriminate].
      intros _. rewrite Fc. fold c. rewrite Em, Fs.
      split; [reflexivity |]. split; [apply Hle | exact Fa].
  - (* running *)
    assert (Hd : exists w', pedal_pressed env pedal_value w = Done w').
    { unfold pedal_pressed. rewrite Hp. fold c.
      destruct (config_manager.pid_enabled c) eqn:Em.
      - unfold pid_control_path. wsimpl. rewrite Ha.
        destruct (pid_controller (app w)) as [pid |] eqn:Ec;
          [| exfalso; exact (Hpid Em eq_refl)].
        destruct (update pid _ _ _) as [pid2 out]. eexists. reflexivity.
      - unfold open_loop_path. wsimpl. rewrite Ha. eexists. reflexivity. }
    destruct Hd as (w' & R).
    destruct (running_tick_stays_running pedal_value w w' Hp Ha R) as (Fa & Fp).
    exists w'. split; [exact R |].
    assert (Fc : config w' = c).
    { revert R. unfold pedal_pressed. rewrite Hp. fold c.
      destruct (config_manager.pid_enabled c).
      - unfold pid_control_path. wsimpl. rewrite Ha.
        destruct (pid_controller (app w)) as [pid |]; [| discriminate].
        destruct (update pid _ _ _) as [pid2 out].
        intro H. injection H as <-.
        now rewrite WorldFacts.sleep_ms_config.
      - unfold open_loop_path. wsimpl. rewrite Ha.
        intro H. now injection H as <-. }
    split; [exact Fc |]. split; [exact Fp |].
    unfold ramp_increment, target, ramp_target.
    split; [intros ->; reflexivity |].
    split; [intros ->; reflexivity |].
    split; [discriminate | intros _; exact Fa].
Qed.

(** *** The ramp over the passes of the main loop *)





Lemma pid_reinit_check_settled (w : World) :
  pid_stale (config w) (app w) = false -> pid_reinit_check w = w.
Proof. intro H. unfold pid_reinit_check. now rewrite H. Qed.



Lemma main_loop_step (n fuel : nat) (w w' : World) :
  main_loop_iter env fuel w = Done w' ->
  main_loop env (S n) fuel w = main_loop env n fuel w'.
Proof. intro H. simpl. now rewrite H. Qed.




End WithEnv.


(** The open-loop target is not negative when the calibrated powers add up
    to a non-negative percentage. *)
Lemma open_loop_target_nonneg (pedal_value : Z) (c : config_manager.Config) :
  (0 <= config_manager.calibrated_motor_power_free_running_percent c
        + config_manager.calibrated_motor_power_load_offset_percent c)%Q ->
  (0 <= open_loop_target pedal_value c)%Q.
Proof.
  intro H. unfold open_loop_target.
  fold (normalized pedal_value).
  destruct (MotorControlSpec.normalized_bounds pedal_value) as [N0 N1].
  pose proof (Qmult_le_0_compat _ _ N0 H) as Hm.
  repeat match goal with
         | |- context [Py.min ?a ?b] =>
             destruct (PyFacts.min_cases a b) as [[? ->] | [? ->]]
         end; lra.
Qed.





End SoftStartSpec.

(** ** [autotune_pid] *)

Module AutotuneSpec.

Import motor_control.
Import main.


Lemma autotune_complete_completed (l : AutotuneLocals) (w : World) :
  sufficient_swing l -> completed (config w) l (autotune_complete l w).
Proof.
  intro H. unfold completed, autotune_complete.
  split; [exact H |]. split; [reflexivity |]. split; [reflexivity |].
  split; [reflexivity |]. split; [reflexivity |].
  apply StopSpec.set_motor_power_dead_zone. discriminate.
Qed.

Lemma autotune_body_spec (l : AutotuneLocals) (w : World) :
  forall (break : bool) (l' : AutotuneLocals) (w' : World),
    autotune_body l w = (break, l', w') ->
    same_params l l'
    /\ uptime_ms w' = uptime_ms w
    /\ awaits w' = awaits w
    /\ (if break then completed (config w) l' w'
        else config w' = config w /\ app w' = app w).
Proof.
  intros break l' w'. unfold autotune_body.
  pose proof (WorldFacts.calculate_rpm_frame w) as F.
  destruct (calculate_rpm w) as [w1 rpm]. simpl in F.
  destruct F as (Fu & Fa & Fm & Fc & Fg & Fo & _).
  destruct ((10 <? rpm)
            && (100 <=? utime.ticks_diff (ticks_ms w1) (last_rpm_sample_time l))).
  2:{ intro H. injection H as <- <- <-.
      repeat split; assumption. }
  set (w2 := if Py.Qlt_bool _ _ then _ else _).
  assert (F2 : uptime_ms w2 = uptime_ms w1 /\ awaits w2 = awaits w1
               /\ config w2 = config w1 /\ app w2 = app w1).
  { unfold w2.
    destruct (Py.Qlt_bool _ _); [repeat split |].
    destruct (Py.Qlt_bool _ _); repeat split. }
  destruct F2 as (Gu & Ga & Gc & Gg). clearbody w2.
  cbn [autotune_target_rpm autotune_start_time sampled].
  destruct (10000 <? utime.ticks_diff (ticks_ms w2) (autotune_start_time l)).
  2:{ intro H. injection H as <- <- <-.
      repeat split; congruence. }
  match goal with
  | |- context [Py.Qlt_bool ?a ?b] => destruct (Py.Qlt_bool a b) eqn:E
  end.
  - intro H. injection H as <- <- <-.
    split; [repeat split |]. split; [simpl; congruence |].
    split; [simpl; congruence |].
    rewrite <- Fc, <- Gc. apply autotune_complete_completed.
    apply PyFacts.Qlt_bool_iff in E. exact E.
  - intro H. injection H as <- <- <-.
    repeat split; simpl; congruence.
Qed.

Lemma same_params_refl (l : AutotuneLocals) : same_params l l.
Proof. repeat split. Qed.

Lemma same_params_trans (l1 l2 l3 : AutotuneLocals) :
  same_params l1 l2 -> same_params l2 l3 -> same_params l1 l3.
Proof.
  intros (A1 & A2 & A3 & A4 & A5) (B1 & B2 & B3 & B4 & B5).
  repeat split; congruence.
Qed.

Section WithEnv.

Variable env : nat -> Event.

Lemma sleep_ms_autotune_flags (n : Z) (w : World) :
  autotune_stage (app (sleep_ms env n w)) = autotune_stage (app w)
  /\ autotune_active (app (sleep_ms env n w))
     = autotune_active (app w) && negb (stop_operations (env (awaits w))).
Proof.
  unfold sleep_ms, happen.
  destruct (stop_operations (env (awaits w))); simpl.
  - now rewrite andb_false_r.
  - now rewrite andb_true_r.
Qed.

(** What a returning loop leaves: either the completion branch was taken,
    or nothing of the configuration and the stage was touched. *)
Lemma autotune_loop_outcome :
  forall (fuel : nat) (l : AutotuneLocals) (w : World)
         (l' : AutotuneLocals) (w' : World),
    autotune_loop env fuel l w = Done (l', w') ->
    same_params l l'
    /\ (completed (config w) l' w'
        \/ (config w' = config w
            /\ autotune_stage (app w') = autotune_stage (app w))).
Proof.
  induction fuel as [| fuel IH]; intros l w l' w' H; simpl in H.
  - destruct (autotune_active (app w) && _); [discriminate |].
    injection H as <- <-. split; [apply same_params_refl | now right].
  - destruct (autotune_active (app w) && _).
    2:{ injection H as <- <-. split; [apply same_params_refl | now right]. }
    destruct (autotune_body l w) as [[break l1] w1] eqn:E.
    destruct (autotune_body_spec l w _ _ _ E) as (P & _ & _ & B).
    destruct break.
    + injection H as <- <-. split; [exact P | now left].
    + destruct B as (Bc & Bg).
      destruct (IH _ _ _ _ H) as (P' & C).
      rewrite WorldFacts.sleep_ms_config, Bc in C.
      destruct (sleep_ms_autotune_flags 50 w1) as (Fs & _).
      rewrite Fs, Bg in C.
      split; [exact (same_params_trans _ _ _ P P') | exact C].
Qed.



Lemma autotune_run_started (fuel : nat) (w : World) (pid : PID) :
  pid_controller (app w) = Some pid ->
  autotune_run env fuel w
  = autotune_loop env fuel
      (initial_locals w (ticks_ms (started env pid w))) (started env pid w).
Proof.
  intro H. unfold autotune_run. simpl. rewrite H. reflexivity.
Qed.

Lemma autotune_run_needs_controller (fuel : nat) (w : World)
      (r : AutotuneLocals * World) :
  autotune_run env fuel w = Done r ->
  exists pid, pid_controller (app w) = Some pid.
Proof.
  unfold autotune_run. simpl.
  destruct (pid_controller (app w)) as [pid |]; [| discriminate].
  intros _. now exists pid.
Qed.

Lemma started_frame (pid : PID) (w : World) :
  config (started env pid w) = config w
  /\ autotune_stage (app (started env pid w)) = 1
  /\ autotune_active (app (started env pid w))
     = negb (stop_operations (env (awaits w)))
  /\ uptime_ms (started env pid w)
     = uptime_ms w + 2000 + Z.of_N (overrun_ms (env (awaits w)))
  /\ awaits (started env pid w) = S (awaits w).
Proof.
  unfold started.
  rewrite WorldFacts.sleep_ms_config, WorldFacts.sleep_ms_uptime,
    WorldFacts.sleep_ms_awaits.
  match goal with
  | |- context [sleep_ms env ?n ?x] =>
      destruct (sleep_ms_autotune_flags n x) as (-> & ->)
  end.
  simpl. repeat split.
Qed.

(** The epilogue after a completed loop keeps stage 2 and the gains. *)
Lemma epilogue_completed (c : config_manager.Config) (l : AutotuneLocals)
      (w : World) :
  completed c l w -> completed c l (autotune_epilogue w).
Proof.
  intros (H1 & H2 & H3 & H4 & H5 & H6). unfold autotune_epilogue.
  rewrite H4. unfold completed. simpl. rewrite H2, H3.
  split; [exact H1 |]. split; [reflexivity |]. split; [reflexivity |].
  split; [reflexivity |]. split; [reflexivity |].
  apply StopSpec.set_motor_power_dead_zone. discriminate.
Qed.



End WithEnv.



End AutotuneSpec.

(** * Further properties of the code *)

(** ** [PID.update] and [PID.reset] *)

Module PidSpec.

Import motor_control.

Lemma clamp_compat (lo hi x y : Q) :
  (lo <= hi)%Q -> (x == y)%Q ->
  (Py.max lo (Py.min hi x) == Py.max lo (Py.min hi y))%Q.
Proof.
  intros H E. apply Qle_antisym; apply PyFacts.clamp_mono; lra.
Qed.

Lemma dt_nonzero (d : Z) : d <> 0 -> Qeq_bool (inject_Z d / 1000) 0 = false.
Proof.
  intro H. destruct (Qeq_bool (inject_Z d / 1000) 0) eqn:E; [| reflexivity].
  apply Qeq_bool_iff in E. exfalso. apply H.
  unfold Qeq in E. simpl in E. lia.
Qed.

Lemma update_elapsed (self : PID) (now : Z) (setpoint current_value : Q) :
  utime.ticks_diff now (_last_time self) <> 0 ->
  update self now setpoint current_value =
  (let dt := (inject_Z (utime.ticks_diff now (_last_time self)) / 1000)%Q in
   let error := (setpoint - current_value)%Q in
   let integral := (_integral self + error * dt)%Q in
   (mkPID (kp self) (ki self) (kd self) error integral now
          (_soft_start_current_setpoint self),
    Py.max 0
      (Py.min 100
         (kp self * error + ki self * integral
          + kd self * (error - _prev_error self) / dt)))%Q).
Proof.
  intro H. unfold update. now rewrite (dt_nonzero _ H).
Qed.

(** X1.  When time elapsed since the previous call, [update] returns a
    percentage between 0 and 100, stores the new error, the new time and the
    integral grown by error times elapsed seconds, and leaves the gains and
    the soft-start setpoint alone; with [ki = kd = 0] the output is the
    proportional term clamped to that range. *)
Theorem pid_update_clamps_and_records
        (self : PID) (now : Z) (setpoint current_value : Q) :
  utime.ticks_diff now (_last_time self) <> 0 ->
  let self' := fst (update self now setpoint current_value) in
  let out := snd (update self now setpoint current_value) in
  let dt := (inject_Z (utime.ticks_diff now (_last_time self)) / 1000)%Q in
  (0 <= out <= 100)%Q
  /\ _prev_error self' = (setpoint - current_value)%Q
  /\ _last_time self' = now
  /\ _integral self' = (_integral self + (setpoint - current_value) * dt)%Q
  /\ kp self' = kp self /\ ki self' = ki self /\ kd self' = kd self
  /\ _soft_start_current_setpoint self' = _soft_start_current_setpoint self
  /\ ((ki self == 0)%Q -> (kd self == 0)%Q ->
      (out == Py.max 0 (Py.min 100 (kp self * (setpoint - current_value))))%Q).
Proof.
  intros H self' out dt. unfold self', out.
  rewrite (update_elapsed self now setpoint current_value H).
  cbn [fst snd _prev_error _last_time _integral kp ki kd
       _soft_start_current_setpoint].
  split; [apply PyFacts.clamp_bounds; lra |].
  do 7 (split; [reflexivity |]).
  intros Hi Hd. apply clamp_compat; [lra |].
  unfold Qdiv. rewrite Hi, Hd. ring.
Qed.

(** A proportional controller 20 ms after its construction: 100 - 80. *)
Lemma pid_update_clamps_and_records_witness :
  (snd (update (PID_init 1 0 0 5000) 5020 100 80) == 20)%Q
  /\ _prev_error (fst (update (PID_init 1 0 0 5000) 5020 100 80)) = (100 - 80)%Q.
Proof.
  destruct (pid_update_clamps_and_records (PID_init 1 0 0 5000) 5020 100 80)
    as (_ & E & _ & _ & _ & _ & _ & _ & P).
  - vm_compute. discriminate.
  - split; [| exact E].
    rewrite (P ltac:(reflexivity) ltac:(reflexivity)). vm_compute. reflexivity.
Defined.

(** X2.  [reset] erases the history: the first [update] after a reset at
    [t0] returns the clamped sum of [kp e], [ki e dt] and [kd e / dt] for
    the error [e] of that call alone, whatever integral and previous error
    the controller had accumulated before the reset. *)
Theorem pid_reset_forgets_history
        (self : PID) (t0 now : Z) (setpoint current_value : Q) :
  utime.ticks_diff now t0 <> 0 ->
  let dt := (inject_Z (utime.ticks_diff now t0) / 1000)%Q in
  let e := (setpoint - current_value)%Q in
  (snd (update (reset self t0) now setpoint current_value)
   == Py.max 0
        (Py.min 100 (kp self * e + ki self * (e * dt) + kd self * e / dt)))%Q
  /\ _integral (reset self t0) = 0%Q
  /\ _prev_error (reset self t0) = 0%Q
  /\ _soft_start_current_setpoint (reset self t0) = 0%Q
  /\ _last_time (reset self t0) = t0.
Proof.
  intros H dt e.
  split; [| repeat split].
  rewrite (update_elapsed (reset self t0) now setpoint current_value H).
  cbn [snd reset kp ki kd _integral _prev_error _last_time].
  apply clamp_compat; [lra |]. fold dt e. unfold Qdiv. ring.
Qed.

(** A controller with a large integral and previous error, reset and asked
    20 ms later with an error of 20: gains 1, 1/2 and 0 give 20 + 0.2. *)
Lemma pid_reset_forgets_history_witness :
  (snd (update (reset (mkPID 1 (1 # 2) 0 (-300) 9000 77 40) 5000) 5020 100 80)
   == 101 # 5)%Q.
Proof.
  destruct (pid_reset_forgets_history (mkPID 1 (1 # 2) 0 (-300) 9000 77 40)
              5000 5020 100 80) as (E & _).
  - vm_compute. discriminate.
  - rewrite E. vm_compute. reflexivity.
Defined.

End PidSpec.

(** ** The TRIAC firing task *)

Module FiringSpec.

Import motor_control.

(** X3.  A pass of the firing task writes the gate high exactly when a zero
    crossing newer than the last one handled is stamped, the target delay is
    positive and below the half cycle, and the pin is initialised; it then
    writes one pulse, high and back low.  The pass that follows without a new
    crossing does not pulse: there is at most one pulse per zero crossing. *)
Theorem one_pulse_per_zero_crossing (zc_seen : Z) (s : State) :
  let zc' := fst (triac_firing_iter zc_seen s) in
  let writes := snd (triac_firing_iter zc_seen s) in
  (In true writes <->
   0 < utime.ticks_diff (last_zero_cross_time_us s) zc_seen
   /\ 0 < _target_triac_delay_us s < ac_half_cycle_time_us
   /\ triac_gate_pin s <> None)
  /\ (In true writes -> writes = [true; false])
  /\ ~ In true (snd (triac_firing_iter zc' s)).
Proof.
  unfold triac_firing_iter, fire_triac, hold_gate_low.
  destruct (0 <? utime.ticks_diff (last_zero_cross_time_us s) zc_seen) eqn:Ez.
  - apply Z.ltb_lt in Ez.
    destruct (0 <? _target_triac_delay_us s) eqn:E1;
      destruct (_target_triac_delay_us s <? ac_half_cycle_time_us) eqn:E2;
      cbn [andb fst snd];
      rewrite TickFacts.ticks_diff_same; cbn [Z.ltb Z.compare fst snd];
      try apply Z.ltb_lt in E1; try apply Z.ltb_ge in E1;
      try apply Z.ltb_lt in E2; try apply Z.ltb_ge in E2;
      destruct (triac_gate_pin s); cbn [In];
      (split; [split; [intro A | intros (_ & A & B)] | split; [intro A |]]);
      try reflexivity; try lia; try tauto; try congruence;
      try (intuition discriminate).
  - assert (Ez' : ~ 0 < utime.ticks_diff (last_zero_cross_time_us s) zc_seen)
      by (apply Z.ltb_ge in Ez; lia).
    cbn [fst snd]. rewrite Ez. cbn [snd].
    destruct (triac_gate_pin s); cbn [In];
      (split; [split; [intro A | intros (A & _)] | split; [intro A |]]);
      try tauto; try (intuition discriminate).
Qed.

(** X4.  After [set_motor_power(percent)] on an initialised pin, a pass of
    the firing task on a new zero crossing pulses the gate if and only if
    the clamped percentage is above 5. *)
Theorem power_decides_firing (percent : Q) (zc_seen : Z) (s : State) :
  0 < utime.ticks_diff (last_zero_cross_time_us s) zc_seen ->
  triac_gate_pin s <> None ->
  (In true (snd (triac_firing_iter zc_seen (set_motor_power percent s)))
   <-> (5 < clamp_percent percent)%Q).
Proof.
  intros Hz Hp. apply Z.ltb_lt in Hz.
  destruct (Qlt_le_dec 5 (clamp_percent percent)) as [Hon | Hoff].
  - rewrite (MotorControlSpec.power_on percent s Hon).
    pose proof (MotorControlSpec.clamp_percent_bounds percent) as B.
    pose proof (MotorControlSpec.on_delay_range (clamp_percent percent)
                  ltac:(lra)) as R.
    unfold triac_firing_iter, fire_triac.
    cbn [last_zero_cross_time_us _target_triac_delay_us triac_gate_pin].
    rewrite Hz.
    replace (0 <? Py.int (calculated_delay (clamp_percent percent))) with true
      by (symmetry; apply Z.ltb_lt;
          unfold min_fire_delay_us in R; lia).
    replace (Py.int (calculated_delay (clamp_percent percent))
             <? ac_half_cycle_time_us) with true
      by (symmetry; apply Z.ltb_lt;
          unfold max_effective_delay_us, ac_half_cycle_time_us in *; lia).
    cbn [andb snd].
    destruct (triac_gate_pin s); [| contradiction].
    split; [intros _; exact Hon | intros _; now left].
  - rewrite (MotorControlSpec.power_off percent s Hoff).
    unfold triac_firing_iter, hold_gate_low.
    cbn [last_zero_cross_time_us _target_triac_delay_us triac_gate_pin].
    rewrite Hz. cbn.
    split; [| intro A; lra].
    destruct (triac_gate_pin s); cbn; intuition discriminate.
Qed.

(** Half power pulses the gate on a new crossing, 3 percent does not. *)
Lemma power_decides_firing_witness :
  In true
     (snd (triac_firing_iter 0
             (set_motor_power 50
                (zero_cross_isr 20000 (init_motor_control 0 initial)))))
  /\ ~ In true
       (snd (triac_firing_iter 0
               (set_motor_power 3
                  (zero_cross_isr 20000 (init_motor_control 0 initial))))).
Proof.
  split.
  - apply (power_decides_firing 50 0
             (zero_cross_isr 20000 (init_motor_control 0 initial)));
      [reflexivity | discriminate | reflexivity].
  - intro A.
    apply (power_decides_firing 3 0
             (zero_cross_isr 20000 (init_motor_control 0 initial)))
      in A; [| reflexivity | discriminate].
    vm_compute in A. discriminate.
Defined.

End FiringSpec.

(** ** The pulse interrupt and the RPM windows *)

Module PulseSpec.

Import sensor_manager.

Lemma ticks_diff_elapsed (t d : Z) :
  - utime.TICKS_HALF <= d < utime.TICKS_HALF ->
  utime.ticks_diff (utime.wrap (t + d)) (utime.wrap t) = d.
Proof.
  intro H. replace (utime.wrap t) with (utime.wrap t + 0) by lia.
  rewrite TickFacts.ticks_diff_deadline; lia.
Qed.

Lemma bounce_rejected (t d last : Z) (s : State) :
  last = utime.wrap t -> 0 <= d <= 100 ->
  rpm_pulse_isr (utime.wrap (t + d)) last s = (last, s).
Proof.
  intros -> H. unfold rpm_pulse_isr.
  rewrite ticks_diff_elapsed by (unfold utime.TICKS_HALF; lia).
  replace (100 <? d) with false by (symmetry; apply Z.ltb_ge; lia).
  reflexivity.
Qed.

(** X5.  The pulse interrupt debounces: an edge more than 100 us (and less
    than half a counter period) after the last counted edge is counted once
    and becomes the new reference; any burst of edges within 100 us of the
    last counted edge leaves the counter and the reference as they were, also
    across the wrap of the microsecond counter; and no edge ever changes
    anything but the pulse counter. *)
Theorem pulse_interrupt_debounces (t : Z) (s : State) :
  (forall d : Z,
      100 < d < utime.TICKS_HALF ->
      rpm_pulse_isr (utime.wrap (t + d)) (utime.wrap t) s
      = (utime.wrap (t + d), add_pulses 1 s))
  /\ (forall burst : list Z,
         Forall (fun d => 0 <= d <= 100) burst ->
         pulse_edges (map (fun d => utime.wrap (t + d)) burst) (utime.wrap t) s
         = (utime.wrap t, s))
  /\ (forall (times : list Z) (last : Z),
         let s' := snd (pulse_edges times last s) in
         pulse_count s <= pulse_count s'
         <= pulse_count s + Z.of_nat (List.length times)
         /\ current_rpm s' = current_rpm s
         /\ _last_rpm_calc_time s' = _last_rpm_calc_time s
         /\ needle_up_sensor s' = needle_up_sensor s
         /\ needle_down_sensor s' = needle_down_sensor s).
Proof.
  split; [| split].
  - intros d H. unfold rpm_pulse_isr.
    rewrite ticks_diff_elapsed by lia.
    replace (100 <? d) with true by (symmetry; apply Z.ltb_lt; lia).
    reflexivity.
  - intros burst H. induction H as [| d burst Hd _ IH]; [reflexivity |].
    cbn [map pulse_edges].
    rewrite (bounce_rejected t d (utime.wrap t) s eq_refl Hd). exact IH.
  - intros times. revert s.
    induction times as [| x times IH]; intros s last.
    + cbn. repeat split; lia.
    + cbn [pulse_edges List.length].
      unfold rpm_pulse_isr.
      destruct (100 <? utime.ticks_diff x last).
      * specialize (IH (add_pulses 1 s) x). cbn zeta in IH.
        cbn [add_pulses pulse_count current_rpm _last_rpm_calc_time
             needle_up_sensor needle_down_sensor] in IH.
        destruct IH as (I1 & I2 & I3 & I4 & I5).
        cbn zeta. rewrite I2, I3, I4, I5.
        split; [lia | repeat split].
      * specialize (IH s last). cbn zeta in IH.
        destruct IH as (I1 & I2 & I3 & I4 & I5).
        cbn zeta. rewrite I2, I3, I4, I5.
        split; [lia | repeat split].
Qed.

(** An edge 1 ms after the last counted one is counted; three bounces within
    100 us of it are not. *)
Lemma pulse_interrupt_debounces_witness :
  rpm_pulse_isr 1000 0 initial = (1000, add_pulses 1 initial)
  /\ pulse_edges [1020; 1050; 1100] 1000 (add_pulses 1 initial)
     = (1000, add_pulses 1 initial).
Proof.
  split.
  - destruct (pulse_interrupt_debounces 0 initial) as (A & _).
    exact (A 1000 ltac:(vm_compute; split; reflexivity)).
  - destruct (pulse_interrupt_debounces 1000 (add_pulses 1 initial))
      as (_ & B & _).
    exact (B [20; 50; 100] ltac:(repeat constructor; discriminate)).
Defined.



End PulseSpec.

(** ** [config_manager.py]: loading and saving *)

Module ConfigSpec.

Import config_manager.

Section Dictionaries.

Variable V : Type.
Implicit Types d defaults : list (string * V).

Lemma dict_get_set_same (k : string) (v : V) d :
  dict_get k (dict_set k v d) = Some v.
Proof.
  induction d as [| [k' x] d IH]; cbn [dict_set dict_get].
  - now rewrite String.eqb_refl.
  - destruct (String.eqb k k') eqn:E; cbn [dict_get]; rewrite E;
      [reflexivity | exact IH].
Qed.

Lemma dict_get_set_other (k k' : string) (v : V) d :
  k <> k' -> dict_get k' (dict_set k v d) = dict_get k' d.
Proof.
  intro H. induction d as [| [k0 x] d IH]; cbn [dict_set dict_get].
  - destruct (String.eqb k' k) eqn:E; [| reflexivity].
    apply String.eqb_eq in E. congruence.
  - destruct (String.eqb k k0) eqn:E; cbn [dict_get].
    + apply String.eqb_eq in E. subst k0.
      destruct (String.eqb k' k) eqn:E'; [| reflexivity].
      apply String.eqb_eq in E'. congruence.
    + now rewrite IH.
Qed.

(** A lookup after the merge: the loaded value if the key was loaded, else
    the default, else nothing. *)
Lemma merge_defaults_get (k : string) defaults :
  forall d,
    dict_get k (merge_defaults defaults d)
    = match dict_get k d with
      | Some v => Some v
      | None => dict_get k defaults
      end.
Proof.
  induction defaults as [| [key dv] rest IH]; intro d; cbn [merge_defaults].
  - cbn [dict_get]. now destruct (dict_get k d).
  - rewrite IH. cbn [dict_get]. unfold dict_mem.
    destruct (String.eqb k key) eqn:E.
    + apply String.eqb_eq in E. subst key.
      destruct (dict_get k d) eqn:G; [now rewrite G |].
      now rewrite dict_get_set_same.
    + assert (N : key <> k)
        by (intro A; subst key; rewrite String.eqb_refl in E; discriminate).
      destruct (dict_get key d); [reflexivity |].
      now rewrite (dict_get_set_other key k dv d N).
Qed.

(** Merging into a dictionary that has every default key changes nothing. *)
Lemma merge_defaults_complete defaults :
  forall d,
    (forall k, dict_mem k defaults = true -> dict_mem k d = true) ->
    merge_defaults defaults d = d.
Proof.
  induction defaults as [| [key dv] rest IH]; intros d H; cbn [merge_defaults];
    [reflexivity |].
  assert (M : dict_mem key d = true).
  { apply H. unfold dict_mem. cbn [dict_get]. now rewrite String.eqb_refl. }
  rewrite M. apply IH. intros k Hk.
  destruct (dict_mem k d) eqn:E; [reflexivity |].
  rewrite <- E. apply H. unfold dict_mem in *. cbn [dict_get].
  destruct (String.eqb k key); [reflexivity | exact Hk].
Qed.

Lemma merge_defaults_mem (k : string) defaults d :
  dict_mem k defaults = true ->
  dict_mem k (merge_defaults defaults d) = true.
Proof.
  unfold dict_mem. rewrite merge_defaults_get.
  destruct (dict_get k d); [reflexivity |].
  now destruct (dict_get k defaults).
Qed.

End Dictionaries.

(** X7.  [load_config] on a readable file: every key of the file keeps the
    file's value, every default key the file lacks gets its default, a key
    in neither stays absent, and the file is not rewritten; on an unreadable
    file the configuration is exactly the defaults, which are written back
    when the file system allows it. *)
Theorem load_config_merges_defaults (writable : bool) :
  (forall (d : Dict) (k : string),
      dict_get k (fst (load_config writable (Object d)))
      = match dict_get k d with
        | Some v => Some v
        | None => dict_get k DEFAULT_CONFIG_dict
        end)
  /\ (forall (d : Dict) (k : string),
         dict_mem k DEFAULT_CONFIG_dict = true ->
         dict_mem k (fst (load_config writable (Object d))) = true)
  /\ (forall d : Dict, snd (load_config writable (Object d)) = Object d)
  /\ fst (load_config writable Unreadable) = DEFAULT_CONFIG_dict
  /\ snd (load_config true Unreadable) = Object DEFAULT_CONFIG_dict
  /\ snd (load_config false Unreadable) = Unreadable.
Proof.
  split; [intros d k; apply merge_defaults_get |].
  split; [intros d k; apply merge_defaults_mem |].
  repeat split.
Qed.

(** X8.  Saving the configuration [load_config] produced and loading it
    again gives the same dictionary, entry for entry and in the same order,
    whatever the first file held. *)
Theorem load_after_save_is_identity (w1 w2 : bool) (file : FileRead) :
  let config := fst (load_config w1 file) in
  fst (load_config w2 (save_config true config (snd (load_config w1 file))))
  = config.
Proof.
  cbn zeta. unfold save_config.
  destruct file as [| d]; cbn [load_config fst snd].
  - apply merge_defaults_complete. auto.
  - apply merge_defaults_complete. intros k Hk.
    now apply merge_defaults_mem.
Qed.

End ConfigSpec.

(** ** [web_server.py]: starting and stopping the routines *)

Module WebSpec.

Import motor_control.
Import main.
Import web_server.





End WebSpec.

(** ** The main loop outside a press *)

Module MainLoopSpec.

Import motor_control.
Import main.
Import SoftStartSpec.

Lemma differs_same (x : Q) : differs x (Some x) = false.
Proof. unfold differs. now rewrite Qeq_bool_refl. Qed.

(** X10.  After the controller check the controller exists and the cached
    gains are the configured ones, so a second check does nothing; a check
    that finds nothing stale changes nothing; a stale one builds a fresh
    controller from the configured gains (no integral, no previous error,
    soft-start setpoint 0) and touches neither the motor nor the
    configuration; and clearing the cached [kp], as the parameter route does
    after a gain was written, makes the next check rebuild. *)
Theorem pid_check_rebuilds_when_stale (w : World) :
  let w' := pid_reinit_check w in
  pid_stale (config w') (app w') = false
  /\ pid_reinit_check w' = w'
  /\ config w' = config w
  /\ motor w' = motor w
  /\ is_pedal_pressed (app w') = is_pedal_pressed (app w)
  /\ (pid_stale (config w) (app w) = false -> w' = w)
  /\ (pid_stale (config w) (app w) = true ->
      pid_controller (app w')
      = Some (PID_init (config_manager.kp (config w))
                       (config_manager.ki (config w))
                       (config_manager.kd (config w)) (ticks_ms w))
      /\ console w' = PidReinitialized :: console w)
  /\ pid_stale (config w) (app (web_server.invalidate_pid_cache w)) = true.
Proof.
  intro w'.
  assert (S' : pid_stale (config w') (app w') = false).
  { unfold w', pid_reinit_check.
    destruct (pid_stale (config w) (app w)) eqn:E; [| exact E].
    unfold pid_stale. wsimpl. now rewrite !differs_same. }
  split; [exact S' |].
  split; [now apply pid_reinit_check_settled |].
  unfold w', pid_reinit_check.
  destruct (pid_stale (config w) (app w)) eqn:E.
  - split; [reflexivity |]. split; [reflexivity |]. split; [reflexivity |].
    split; [discriminate |]. split; [intros _; split; reflexivity |].
    unfold pid_stale, web_server.invalidate_pid_cache. wsimpl.
    cbn [differs]. now rewrite orb_true_r.
  - split; [reflexivity |]. split; [reflexivity |]. split; [reflexivity |].
    split; [reflexivity |]. split; [discriminate |].
    unfold pid_stale, web_server.invalidate_pid_cache. wsimpl.
    cbn [differs]. now rewrite orb_true_r.
Qed.

Section WithEnv.

Variable env : nat -> Event.





End WithEnv.


End MainLoopSpec.

(** ** The pressed pedal: open-loop power and the start of a press *)

Module PressSpec.

Import motor_control.
Import main.
Import SoftStartSpec.

Lemma min_mono_l (x y b : Q) : (x <= y)%Q -> (Py.min x b <= Py.min y b)%Q.
Proof.
  intro H.
  destruct (PyFacts.min_cases x b) as [[Hx Ex] | [Hx Ex]];
    destruct (PyFacts.min_cases y b) as [[Hy Ey] | [Hy Ey]];
    rewrite Ex, ?Ey; lra.
Qed.

Lemma open_loop_target_normalized (pedal_value : Z) (c : config_manager.Config) :
  open_loop_target pedal_value c
  = (let m := (config_manager.calibrated_motor_power_free_running_percent c
               + config_manager.calibrated_motor_power_load_offset_percent c)%Q in
     Py.min (Py.min (normalized pedal_value * m) m) 100).
Proof. reflexivity. Qed.

Lemma normalized_released (pedal_value : Z) :
  pedal_value <= 1000 -> (normalized pedal_value == 0)%Q.
Proof.
  intro H. unfold normalized.
  assert (N : (inject_Z (pedal_value - 1000) / inject_Z (adc_max_value - 1000)
               <= 0)%Q).
  { apply Qle_shift_div_r; [reflexivity |].
    rewrite Qmult_0_l. change 0%Q with (inject_Z 0).
    apply PyFacts.inject_Z_le. lia. }
  destruct (PyFacts.min_cases 1
              (inject_Z (pedal_value - 1000) / inject_Z (adc_max_value - 1000)))
    as [[H1 ->] | [H1 ->]].
  - destruct (PyFacts.max_cases 0
                (inject_Z (pedal_value - 1000) / inject_Z (adc_max_value - 1000)))
      as [[H2 ->] | [H2 ->]]; lra.
  - lra.
Qed.

Lemma normalized_full (pedal_value : Z) :
  adc_max_value <= pedal_value -> (normalized pedal_value == 1)%Q.
Proof.
  intro H. unfold normalized.
  assert (N : (1 <= inject_Z (pedal_value - 1000)
                    / inject_Z (adc_max_value - 1000))%Q).
  { apply Qle_shift_div_l; [reflexivity |].
    rewrite Qmult_1_l. apply PyFacts.inject_Z_le. lia. }
  destruct (PyFacts.min_cases 1
              (inject_Z (pedal_value - 1000) / inject_Z (adc_max_value - 1000)))
    as [[H1 ->] | [H1 ->]].
  - lra.
  - destruct (PyFacts.max_cases 0 1) as [[H2 ->] | [H2 ->]]; lra.
Qed.

(** X11.  The open-loop power for a pedal reading, when the two calibrated
    percentages add up to a non-negative maximum: it lies between 0 and the
    smaller of that maximum and 100, is 0 up to the press threshold and the
    full maximum (capped at 100) from the top of the ADC range, never falls
    when the reading grows, and, once soft start is over, is the very power
    a pressed tick commands. *)
Theorem open_loop_power_follows_pedal (c : config_manager.Config) :
  let m := (config_manager.calibrated_motor_power_free_running_percent c
            + config_manager.calibrated_motor_power_load_offset_percent c)%Q in
  (0 <= m)%Q ->
  (forall p : Z,
      (0 <= open_loop_target p c <= 100)%Q /\ (open_loop_target p c <= m)%Q)
  /\ (forall p : Z, p <= 1000 -> (open_loop_target p c == 0)%Q)
  /\ (forall p : Z,
         adc_max_value <= p -> (open_loop_target p c == Py.min m 100)%Q)
  /\ (forall p1 p2 : Z,
         p1 <= p2 -> (open_loop_target p1 c <= open_loop_target p2 c)%Q)
  /\ (forall (env : nat -> Event) (p : Z) (w : World),
         config w = c ->
         config_manager.pid_enabled c = false ->
         is_pedal_pressed (app w) = true ->
         soft_start_active (app w) = false ->
         exists w',
           pedal_pressed env p w = Done w'
           /\ (motor_power_percent (motor w') == open_loop_target p c)%Q
           /\ awaits w' = awaits w).
Proof.
  intros m Hm.
  assert (B : forall p, (0 <= open_loop_target p c <= 100)%Q
                        /\ (open_loop_target p c <= m)%Q).
  { intro p. pose proof (open_loop_target_nonneg p c Hm) as H0.
    rewrite open_loop_target_normalized in *. cbn zeta in *. fold m in H0 |- *.
    destruct (PyFacts.min_cases (normalized p * m) m) as [[H1 E1] | [H1 E1]];
      rewrite E1 in *;
      match goal with
      | |- context [Py.min ?a 100] =>
          destruct (PyFacts.min_cases a 100) as [[H2 E2] | [H2 E2]];
          rewrite E2 in *
      end; repeat split; lra. }
  split; [exact B |].
  split.
  { intros p Hp. rewrite open_loop_target_normalized. cbn zeta. fold m.
    pose proof (normalized_released p Hp) as N.
    assert (E : (normalized p * m == 0)%Q) by (rewrite N; ring).
    destruct (PyFacts.min_cases (normalized p * m) m) as [[H1 E1] | [H1 E1]];
      rewrite E1;
      match goal with
      | |- context [Py.min ?a 100] =>
          destruct (PyFacts.min_cases a 100) as [[H2 E2] | [H2 E2]];
          rewrite E2
      end; lra. }
  split.
  { intros p Hp. rewrite open_loop_target_normalized. cbn zeta. fold m.
    pose proof (normalized_full p Hp) as N.
    assert (E : (normalized p * m == m)%Q) by (rewrite N; ring).
    destruct (PyFacts.min_cases (normalized p * m) m) as [[H1 E1] | [H1 E1]];
      rewrite E1;
      destruct (PyFacts.min_cases m 100) as [[H3 E3] | [H3 E3]];
      rewrite ?E3;
      try match goal with
          | |- context [Py.min ?a 100] =>
              destruct (PyFacts.min_cases a 100) as [[H2 E2] | [H2 E2]];
              rewrite E2
          end; lra. }
  split.
  { intros p1 p2 H. rewrite !open_loop_target_normalized. cbn zeta. fold m.
    apply min_mono_l, min_mono_l.
    apply Qmult_le_compat_r; [| exact Hm].
    now apply MotorControlSpec.normalized_mono. }
  intros env p w Hc Hpid Hp Ha.
  unfold pedal_pressed. rewrite Hp, Hc, Hpid.
  unfold open_loop_path. wsimpl. rewrite Ha, Hc.
  eexists. split; [reflexivity |]. split; [| reflexivity].
  wsimpl.
  assert (E : motor_power_percent
                (motor_control.set_motor_power (open_loop_target p c) (motor w))
              = clamp_percent (open_loop_target p c)).
  { unfold motor_control.set_motor_power. now destruct (Qle_bool _ 5). }
  rewrite E. apply PyFacts.clamp_inside. apply B.
Qed.

(** Calibrated powers 80 + 10: a full pedal outside soft start commands 90
    percent. *)
Lemma open_loop_power_follows_pedal_witness :
  exists w',
    pedal_pressed Scenario.still 65535 Scenario.running = Done w'
    /\ (motor_power_percent (motor w') == 90)%Q.
Proof.
  destruct (open_loop_power_follows_pedal config_manager.DEFAULT_CONFIG)
    as (_ & _ & F & _ & P).
  - discriminate.
  - destruct (P Scenario.still 65535 Scenario.running)
      as (w' & R & E & _); try reflexivity.
    exists w'. split; [exact R |].
    rewrite E, (F 65535) by discriminate. vm_compute. reflexivity.
Defined.

Section WithEnv.

Variable env : nat -> Event.

(** X15.  The tick on which a press is first seen starts the ramp from 0,
    whatever ramp value an earlier press left behind: after it the pedal is
    registered as pressed and the ramp is one increment, or the target if one
    increment already reaches it, in which case soft start is over at once. *)
Theorem fresh_press_starts_ramp_at_zero (pedal_value : Z) (w : World) :
  is_pedal_pressed (app w) = false ->
  ~ (config_manager.soft_start_ramp_steps (config w) == 0)%Q ->
  (config_manager.pid_enabled (config w) = true ->
   pid_controller (app w) <> None) ->
  let target := ramp_target pedal_value (config w) in
  let first := (0 + ramp_increment pedal_value (config w))%Q in
  exists w',
    pedal_pressed env pedal_value w = Done w'
    /\ config w' = config w
    /\ is_pedal_pressed (app w') = true
    /\ ramp_value w' = (if Qle_bool target first then target else first)
    /\ soft_start_active (app w') = negb (Qle_bool target first).
Proof.
  intros Hn Hs Hpid target first.
  unfold pedal_pressed at 1. rewrite Hn.
  match goal with
  | |- context [print PedalPressed ?x] => set (wi := print PedalPressed x)
  end.
  assert (Fi : is_pedal_pressed (app wi) = true
               /\ soft_start_active (app wi) = true
               /\ config wi = config w
               /\ ramp_value wi = 0%Q
               /\ (config_manager.pid_enabled (config w) = true ->
                   pid_controller (app wi) <> None)).
  { unfold wi, ramp_value. wsimpl.
    destruct (pid_controller (app w)) as [pid |] eqn:Ep.
    - destruct (config_manager.pid_enabled (config w)) eqn:Em; wsimpl;
        rewrite ?Ep, ?Em;
        (split; [reflexivity |]); (split; [reflexivity |]);
        (split; [reflexivity |]); (split; [reflexivity |]);
        intros; discriminate.
    - wsimpl. rewrite Ep.
      destruct (config_manager.pid_enabled (config w)) eqn:Em.
      + exfalso. exact (Hpid eq_refl eq_refl).
      + (split; [reflexivity |]); (split; [reflexivity |]);
        (split; [reflexivity |]); (split; [reflexivity |]);
        intros; discriminate. }
  destruct Fi as (F1 & F2 & F3 & F4 & F5).
  match goal with
  | |- exists w', ?lhs = _ /\ _ =>
      assert (E : lhs = pedal_pressed env pedal_value wi)
  end.
  { unfold pedal_pressed. rewrite F1. reflexivity. }
  rewrite E. clearbody wi.
  destruct (pressed_tick env pedal_value wi)
    as (w' & R & Fc & Fp & _ & _ & Ta & _).
  { exact F1. }
  { now rewrite F3. }
  { rewrite F3. exact F5. }
  destruct (Ta F2) as (T1 & _ & T2).
  rewrite F3, F4 in T1, T2. rewrite F3 in Fc.
  exists w'. repeat split; assumption.
Qed.

End WithEnv.

(** Open loop, full pedal, a stale ramp of 55 left by the previous press:
    the first tick takes the ramp to 90 / 50. *)
Lemma fresh_press_starts_ramp_at_zero_witness :
  exists w',
    pedal_pressed Scenario.still 65535
      (upd (set_current_soft_start_power 55) Scenario.booted) = Done w'
    /\ (ramp_value w' == 9 # 5)%Q
    /\ soft_start_active (app w') = true.
Proof.
  destruct (fresh_press_starts_ramp_at_zero Scenario.still 65535
              (upd (set_current_soft_start_power 55) Scenario.booted))
    as (w' & R & _ & _ & E1 & E2).
  - reflexivity.
  - intro H. vm_compute in H. discriminate.
  - intro H. vm_compute in H. discriminate.
  - exists w'. split; [exact R |]. split.
    + rewrite E1. vm_compute. reflexivity.
    + rewrite E2. vm_compute. reflexivity.
Defined.

End PressSpec.

(** ** The routines started from the web interface, and the main loop
    beside them *)

Module RoutineSpec.

Import motor_control.
Import main.
Import SoftStartSpec.

(** X13.  [run_max_rpm_calibration] returns without suspending and without
    taking a sample, whatever its flag: no time passes, the sensor state
    (pulse count included) is untouched, power 0 is commanded and the flag is
    clear.  With the flag set on entry it stores 0 as [max_motor_rpm] and
    reports completion; with the flag clear, as when the task is created at
    start-up, it leaves the configuration alone and reports a stop by the
    user. *)
Theorem calibration_never_samples
        (env : nat -> Event) (fuel : nat) (w : World) :
  exists w',
    run_max_rpm_calibration env fuel w = Done w'
    /\ awaits w' = awaits w
    /\ uptime_ms w' = uptime_ms w
    /\ sensors w' = sensors w
    /\ max_rpm_calibration_active (app w') = false
    /\ commanded_off (motor w')
    /\ motor_power_percent (motor w') = 0%Q
    /\ (max_rpm_calibration_active (app w) = true ->
        config w' = config_manager.set_max_motor_rpm 0 (config w)
        /\ console w'
           = MaxRpmCalibrationComplete 0 :: MaxRpmCalibrationInitiated
               :: console w)
    /\ (max_rpm_calibration_active (app w) = false ->
        config w' = config w
        /\ console w'
           = MaxRpmCalibrationStopped :: MaxRpmCalibrationInitiated
               :: console w).
Proof.
  unfold run_max_rpm_calibration.
  rewrite WorldFacts.calibration_loop_skipped. cbn [bind]. wsimpl.
  destruct (max_rpm_calibration_active (app w)) eqn:H;
    (eexists; split; [reflexivity |]);
    (split; [reflexivity |]); (split; [reflexivity |]);
    (split; [reflexivity |]); (split; [reflexivity |]);
    (split; [wsimpl; apply StopSpec.set_motor_power_dead_zone; discriminate |]);
    (split; [reflexivity |]);
    (split; intro H'; [try discriminate H' | try discriminate H']);
    split; reflexivity.
Qed.

Section WithEnv.

Variable env : nat -> Event.

(** One pass of the main loop while a routine is flagged active. *)
Lemma routine_pass (fuel : nat) (w : World) :
  undisturbed env ->
  max_rpm_calibration_active (app w) = true
  \/ autotune_active (app w) = true ->
  exists (w' : World) (rpm : Z),
    main_loop_iter env fuel w = Done w'
    /\ app w' = set_last_rpm rpm (app w)
    /\ config w' = config w
    /\ console w' = console w
    /\ awaits w' = S (awaits w)
    /\ uptime_ms w + 100 <= uptime_ms w'
    /\ commanded_off (motor w')
    /\ motor_power_percent (motor w') = 0%Q.
Proof.
  intros Hu Hf. unfold main_loop_iter.
  pose proof (WorldFacts.calculate_rpm_frame w) as F.
  destruct (calculate_rpm w) as [w1 rpm]. cbn [fst] in F.
  destruct F as (Fu & Fa & Fm & Fc & Fg & Fo & _).
  assert (R : forall x,
             x = sleep_ms env 100
                   (set_motor_power 0 (upd (set_last_rpm rpm) w1)) ->
             app x = set_last_rpm rpm (app w)
             /\ config x = config w
             /\ console x = console w
             /\ awaits x = S (awaits w)
             /\ uptime_ms w + 100 <= uptime_ms x
             /\ commanded_off (motor x)
             /\ motor_power_percent (motor x) = 0%Q).
  { intros x ->.
    pose proof (N2Z.is_nonneg
                  (overrun_ms
                     (env (awaits (set_motor_power 0
                                     (upd (set_last_rpm rpm) w1)))))) as Hn.
    split.
    { unfold sleep_ms, happen. rewrite (Hu _). wsimpl. now rewrite Fg. }
    split; [rewrite WorldFacts.sleep_ms_config; exact Fc |].
    split; [rewrite WorldFacts.sleep_ms_console; exact Fo |].
    split; [rewrite WorldFacts.sleep_ms_awaits; wsimpl; now rewrite Fa |].
    split.
    { rewrite WorldFacts.sleep_ms_uptime. wsimpl. wsimpl_in Hn. lia. }
    split.
    { apply StopSpec.sleep_ms_commanded_off.
      apply StopSpec.set_motor_power_dead_zone. discriminate. }
    unfold sleep_ms, happen. rewrite (Hu _). reflexivity. }
  wsimpl. rewrite Fg.
  destruct Hf as [Hc | Ha].
  - rewrite Hc. eexists. exists rpm. split; [reflexivity |].
    apply R. reflexivity.
  - destruct (max_rpm_calibration_active (app w)); [| rewrite Ha];
      (eexists; exists rpm; split; [reflexivity |]; apply R; reflexivity).
Qed.

Lemma routine_passes (n fuel : nat) :
  undisturbed env ->
  forall w : World,
    max_rpm_calibration_active (app w) = true
    \/ autotune_active (app w) = true ->
    exists (w' : World) (rpm : Z),
      main_loop env (S n) fuel w = Done w'
      /\ app w' = set_last_rpm rpm (app w)
      /\ config w' = config w
      /\ console w' = console w
      /\ awaits w' = (awaits w + S n)%nat
      /\ uptime_ms w + 100 * Z.of_nat (S n) <= uptime_ms w'
      /\ commanded_off (motor w')
      /\ motor_power_percent (motor w') = 0%Q.
Proof.
  intro Hu. induction n as [| n IH]; intros w Hf.
  - destruct (routine_pass fuel w Hu Hf)
      as (w' & rpm & R & A & C & O & W & U & M & P).
    exists w', rpm. rewrite (main_loop_step env 0 fuel w w' R).
    split; [reflexivity |]. split; [exact A |]. split; [exact C |].
    split; [exact O |]. split; [lia |]. split; [lia |].
    split; [exact M | exact P].
  - destruct (routine_pass fuel w Hu Hf)
      as (w1 & rpm1 & R & A & C & O & W & U & _).
    destruct (IH w1) as (w' & rpm & R' & A' & C' & O' & W' & U' & M & P).
    { rewrite A. exact Hf. }
    exists w', rpm. rewrite (main_loop_step env (S n) fuel w w1 R).
    split; [exact R' |].
    split; [rewrite A', A; reflexivity |].
    split; [congruence |]. split; [congruence |].
    split; [lia |]. split; [lia |].
    split; [exact M | exact P].
Qed.


(** X16.  [autotune_pid] entered while no controller has been built fails
    on [pid_controller.reset()]: by then it has flagged itself active at
    stage 1, and it has commanded no power and passed no time.  Nothing
    clears the flag afterwards, so unless a stop is posted every later pass
    of the main loop holds the motor off and builds no controller. *)
Theorem autotune_without_controller_locks_the_motor
        (n fuel fuel' : nat) (w : World) :
  undisturbed env ->
  pid_controller (app w) = None ->
  exists w1 : World,
    autotune_pid env fuel w = Raised AttributeError w1
    /\ autotune_active (app w1) = true
    /\ autotune_stage (app w1) = 1
    /\ config w1 = config w
    /\ motor w1 = motor w
    /\ awaits w1 = awaits w
    /\ exists w2 : World,
         main_loop env (S n) fuel' w1 = Done w2
         /\ autotune_active (app w2) = true
         /\ pid_controller (app w2) = None
         /\ commanded_off (motor w2).
Proof.
  intros Hu Hp.
  assert (E : autotune_pid env fuel w
              = Raised AttributeError
                  (upd (set_autotune_stage 1)
                     (upd (set_autotune_active true)
                        (print AutotuneInitiated w)))).
  { unfold autotune_pid, autotune_run. wsimpl. rewrite Hp. reflexivity. }
  eexists. split; [exact E |].
  split; [reflexivity |]. split; [reflexivity |]. split; [reflexivity |].
  split; [reflexivity |]. split; [reflexivity |].
  destruct (routine_passes n fuel' Hu
              (upd (set_autotune_stage 1)
                 (upd (set_autotune_active true)
                    (print AutotuneInitiated w))))
    as (w2 & rpm & R & A & _ & _ & _ & _ & M & _).
  { right. reflexivity. }
  exists w2. split; [exact R |].
  rewrite A. wsimpl.
  split; [reflexivity |]. split; [exact Hp | exact M].
Qed.

Lemma autotune_loop_inactive (fuel : nat) (l : AutotuneLocals) (w : World) :
  autotune_active (app w) = false ->
  autotune_loop env fuel l w = Done (l, w).
Proof. intro H. destruct fuel; simpl; now rewrite H. Qed.

(** The loop, entered active: it completes, or runs into the deadline still
    active, or finds itself deactivated by a stop posted during one of its
    suspensions. *)
Lemma autotune_loop_classified (t0 : Z) :
  timely env ->
  forall (fuel : nat) (l : AutotuneLocals) (w : World),
    tuning_timeout l = utime.wrap t0 + 45000 ->
    0 <= uptime_ms w - t0 < 45000 + 2 ^ 29 ->
    45000 - (uptime_ms w - t0) <= 50 * Z.of_nat fuel ->
    autotune_active (app w) = true ->
    exists l' w',
      autotune_loop env fuel l w = Done (l', w')
      /\ (awaits w <= awaits w')%nat
      /\ (completed (config w) l' w'
          \/ (config w' = config w
              /\ autotune_stage (app w') = autotune_stage (app w)
              /\ ((autotune_active (app w') = true
                   /\ t0 + 45000 <= uptime_ms w')
                  \/ (autotune_active (app w') = false
                      /\ exists k : nat,
                           (awaits w <= k < awaits w')%nat
                           /\ stop_operations (env k) = true)))).
Proof.
  intro Ht. induction fuel as [| fuel IH]; intros l w Hl He Hf Ha.
  - exists l, w. simpl. rewrite Hl.
    replace (ticks_ms w) with (utime.wrap (t0 + (uptime_ms w - t0)))
      by (unfold ticks_ms; f_equal; lia).
    rewrite TickFacts.ticks_diff_deadline by (unfold utime.TICKS_HALF; lia).
    replace (uptime_ms w - t0 - 45000 <? 0) with false
      by (symmetry; apply Z.ltb_ge; lia).
    rewrite andb_false_r.
    split; [reflexivity |]. split; [lia |].
    right. split; [reflexivity |]. split; [reflexivity |].
    left. split; [exact Ha | lia].
  - simpl. rewrite Hl.
    replace (ticks_ms w) with (utime.wrap (t0 + (uptime_ms w - t0)))
      by (unfold ticks_ms; f_equal; lia).
    rewrite TickFacts.ticks_diff_deadline by (unfold utime.TICKS_HALF; lia).
    rewrite Ha. cbn [andb].
    destruct (uptime_ms w - t0 - 45000 <? 0) eqn:Ec.
    2:{ apply Z.ltb_ge in Ec. exists l, w.
        split; [reflexivity |]. split; [lia |].
        right. split; [reflexivity |]. split; [reflexivity |].
        left. split; [exact Ha | lia]. }
    apply Z.ltb_lt in Ec.
    destruct (autotune_body l w) as [[break l1] w1] eqn:E.
    destruct (AutotuneSpec.autotune_body_spec l w _ _ _ E) as (P & Bu & Ba & B).
    destruct break.
    { exists l1, w1. split; [reflexivity |]. split; [lia |]. now left. }
    destruct B as (Bc & Bg).
    pose proof (Ht (awaits w1)) as Hk.
    pose proof (N2Z.is_nonneg (overrun_ms (env (awaits w1)))) as Hn.
    pose proof (WorldFacts.sleep_ms_uptime env 50 w1) as Su.
    pose proof (WorldFacts.sleep_ms_awaits env 50 w1) as Sa.
    destruct (AutotuneSpec.sleep_ms_autotune_flags env 50 w1) as (Fs & Fa).
    rewrite Bg, Ha in Fa. cbn [andb] in Fa.
    destruct P as (_ & _ & _ & _ & Pt).
    destruct (stop_operations (env (awaits w1))) eqn:Es; cbn [negb] in Fa.
    + exists l1, (sleep_ms env 50 w1).
      split; [now apply autotune_loop_inactive |].
      split; [lia |].
      right. split; [rewrite WorldFacts.sleep_ms_config; exact Bc |].
      split; [rewrite Fs, Bg; reflexivity |].
      right. split; [exact Fa |].
      exists (awaits w1). split; [lia | exact Es].
    + destruct (IH l1 (sleep_ms env 50 w1)) as (l' & w' & R & Q1 & Q3);
        [congruence | lia | lia | exact Fa |].
      exists l', w'. split; [exact R |]. split; [lia |].
      rewrite WorldFacts.sleep_ms_config, Bc, Fs, Bg in Q3.
      destruct Q3 as [C | (Qc & Qs & Q)]; [now left | right].
      split; [exact Qc |]. split; [exact Qs |].
      destruct Q as [Q | (Q & k & Hk' & Sk)]; [now left | right].
      split; [exact Q |]. exists k. split; [lia | exact Sk].
Qed.

(** X17.  With a controller built and suspensions that end in time,
    [autotune_pid] returns within 900 passes of its loop, inactive and with
    the motor commanded off, in one of three ways, told apart by the stage
    it leaves: stage 2, gains found and PID enabled; stage 0, timed out
    after 47 s or more with the time-out line printed and the configuration
    untouched; or stage 1, when [/stop_operations] was posted during one of
    its suspensions -- the stage is not reset then, no time-out line is
    printed and the configuration is untouched. *)
Theorem autotune_ends_in_one_of_three_ways (w : World) (pid : PID) :
  timely env ->
  pid_controller (app w) = Some pid ->
  exists (l' : AutotuneLocals) (w1 : World),
    let w' := autotune_epilogue w1 in
    autotune_run env 900 w = Done (l', w1)
    /\ autotune_pid env 900 w = Done w'
    /\ autotune_active (app w') = false
    /\ commanded_off (motor w')
    /\ ((autotune_stage (app w') = 2
         /\ sufficient_swing l'
         /\ config_manager.pid_enabled (config w') = true)
        \/ (autotune_stage (app w') = 0
            /\ config w' = config w
            /\ uptime_ms w + 47000 <= uptime_ms w'
            /\ console w' = AutotuneFinished :: AutotuneTimedOut :: console w1)
        \/ (autotune_stage (app w') = 1
            /\ config w' = config w
            /\ console w' = AutotuneFinished :: console w1
            /\ exists k : nat,
                 (awaits w <= k < awaits w1)%nat
                 /\ stop_operations (env k) = true)).
Proof.
  intros Ht Hp.
  destruct (AutotuneSpec.started_frame env pid w) as (Sc & Ss & Sa & Su & Sw).
  pose proof (N2Z.is_nonneg (overrun_ms (env (awaits w)))) as Hn.
  assert (G : forall l' w1,
             autotune_loop env 900
               (initial_locals w (ticks_ms (started env pid w)))
               (started env pid w) = Done (l', w1) ->
             autotune_run env 900 w = Done (l', w1)
             /\ autotune_pid env 900 w = Done (autotune_epilogue w1)
             /\ autotune_active (app (autotune_epilogue w1)) = false
             /\ commanded_off (motor (autotune_epilogue w1))).
  { intros l' w1 R.
    split; [now rewrite (AutotuneSpec.autotune_run_started env 900 w pid Hp) |].
    split.
    { unfold autotune_pid.
      rewrite (AutotuneSpec.autotune_run_started env 900 w pid Hp), R.
      reflexivity. }
    split; [reflexivity |].
    apply StopSpec.set_motor_power_dead_zone. discriminate. }
  destruct (stop_operations (env (awaits w))) eqn:Es; cbn [negb] in Sa.
  - (* stopped during the run-up *)
    exists (initial_locals w (ticks_ms (started env pid w))),
           (started env pid w).
    cbn zeta.
    destruct (G _ _ (autotune_loop_inactive 900 _ _ Sa)) as (G1 & G2 & G3 & G4).
    split; [exact G1 |]. split; [exact G2 |]. split; [exact G3 |].
    split; [exact G4 |].
    right. right. unfold autotune_epilogue. rewrite Sa. wsimpl.
    split; [exact Ss |]. split; [exact Sc |]. split; [reflexivity |].
    exists (awaits w). split; [lia | exact Es].
  - destruct (autotune_loop_classified (uptime_ms (started env pid w)) Ht 900
                (initial_locals w (ticks_ms (started env pid w)))
                (started env pid w))
      as (l' & w1 & R & Q1 & Q3); [reflexivity | lia | lia | exact Sa |].
    exists l', w1. cbn zeta.
    destruct (G _ _ R) as (G1 & G2 & G3 & G4).
    split; [exact G1 |]. split; [exact G2 |]. split; [exact G3 |].
    split; [exact G4 |].
    destruct Q3 as [C | (Qc & Qs & [(Qa & Qd) | (Qa & k & Hk & Sk)])].
    + left. apply AutotuneSpec.epilogue_completed in C.
      destruct C as (C1 & C2 & C3 & _).
      split; [exact C3 |]. split; [exact C1 |]. now rewrite C2.
    + right. left. unfold autotune_epilogue. rewrite Qa. wsimpl.
      split; [reflexivity |]. split; [congruence |].
      split; [lia | reflexivity].
    + right. right. unfold autotune_epilogue. rewrite Qa. wsimpl.
      split; [congruence |]. split; [congruence |]. split; [reflexivity |].
      exists k. split; [lia | exact Sk].
Qed.

(** X18.  The gains of a completed autotune, for a positive target RPM and
    a high power above the low one: the swing found is positive, so [Ku] is
    the power step over the swing and the fallback 0.5 is never used; and
    since the swing exceeds a tenth of the target, [kp] lies strictly
    between 0 and 6 (high - low) / target.  With the period fixed at 2 s,
    [ki] equals [kp] and [kd] is a quarter of it. *)
Theorem autotune_gains_bounded
        (fuel : nat) (w : World) (l' : AutotuneLocals) (w1 : World) :
  autotune_run env fuel w = Done (l', w1) ->
  autotune_stage (app w1) = 2 ->
  let c := config w in
  let target := config_manager.autotune_target_rpm c in
  let step := (config_manager.autotune_power_high c
               - config_manager.autotune_power_low c)%Q in
  let swing := max_rpm_in_oscillation l' - min_rpm_in_oscillation l' in
  (0 < target)%Q ->
  (0 < step)%Q ->
  0 < swing
  /\ (ultimate_gain l' == step / inject_Z swing)%Q
  /\ (0 < kp_zn l')%Q
  /\ (kp_zn l' < 6 * step / target)%Q
  /\ (ki_zn l' == kp_zn l')%Q
  /\ (kd_zn l' == kp_zn l' / 4)%Q.
Proof.
  intros R Hs c target step swing Htarget Hstep.
  destruct (AutotuneSpec.autotune_run_needs_controller env _ _ _ R)
    as (pid & Hp).
  rewrite (AutotuneSpec.autotune_run_started env fuel w pid Hp) in R.
  destruct (AutotuneSpec.started_frame env pid w) as (Sc & Ss & _).
  destruct (AutotuneSpec.autotune_loop_outcome env _ _ _ _ _ R) as (P & O).
  destruct O as [C | (_ & Os)]; [| rewrite Ss in Os; lia].
  destruct P as (P1 & P2 & P3 & _).
  cbn [initial_locals autotune_target_rpm autotune_power_high
       autotune_power_low] in P1, P2, P3.
  destruct C as (C1 & _). unfold sufficient_swing in C1.
  rewrite P1 in C1. fold c target swing in C1.
  assert (Hq : (0 < inject_Z swing)%Q) by lra.
  assert (Hz : 0 < swing).
  { unfold Qlt in Hq. cbn in Hq. lia. }
  assert (Ku : (ultimate_gain l' == step / inject_Z swing)%Q).
  { unfold ultimate_gain. fold swing.
    replace (0 <? swing) with true by (symmetry; now apply Z.ltb_lt).
    rewrite P2, P3. reflexivity. }
  assert (Hd : (0 < step / inject_Z swing)%Q).
  { apply Qlt_shift_div_l; [exact Hq | lra]. }
  split; [exact Hz |]. split; [exact Ku |].
  split; [unfold kp_zn; rewrite Ku; lra |].
  split.
  { unfold kp_zn. rewrite Ku.
    apply Qlt_shift_div_l; [exact Htarget |].
    setoid_replace ((6 # 10) * (step / inject_Z swing) * target)%Q
      with (((6 # 10) * step * target) / inject_Z swing)%Q
      by (field; lra).
    apply Qlt_shift_div_r; [exact Hq |]. nra. }
  split.
  { unfold ki_zn. change (Py.Qlt_bool 0 ti_zn) with true. cbn iota.
    unfold ti_zn, Pu. field. }
  unfold kd_zn, td_zn, Pu. field.
Qed.

End WithEnv.


(** Autotune called on the freshly booted device, before the main loop has
    built a controller. *)
Lemma autotune_without_controller_locks_the_motor_witness :
  exists w1,
    autotune_pid Scenario.pressing 900 Scenario.booted
    = Raised AttributeError w1
    /\ autotune_active (app w1) = true
    /\ exists w2,
         main_loop Scenario.pressing 5 0 w1 = Done w2
         /\ pid_controller (app w2) = None.
Proof.
  destruct (autotune_without_controller_locks_the_motor Scenario.pressing
              4 900 0 Scenario.booted)
    as (w1 & R & A & _ & _ & _ & _ & w2 & R2 & _ & P & _).
  - intro k. reflexivity.
  - reflexivity.
  - exists w1. split; [exact R |]. split; [exact A |].
    exists w2. split; [exact R2 | exact P].
Defined.

(** A stop posted during the fourth suspension: the routine returns with
    the stage still 1 and the configuration as it was. *)
Lemma autotune_ends_in_one_of_three_ways_witness :
  exists w',
    autotune_pid Scenario.interrupted 900 Scenario.tuning = Done w'
    /\ autotune_stage (app w') = 1
    /\ autotune_active (app w') = false
    /\ config w' = config Scenario.tuning.
Proof.
  destruct (autotune_ends_in_one_of_three_ways Scenario.interrupted
              Scenario.tuning (PID_init (1 # 2) (1 # 100) (1 # 20) 1000))
    as (l' & w1 & R & P & A & _ & D).
  - intro k. unfold Scenario.interrupted. cbn [overrun_ms]. reflexivity.
  - reflexivity.
  - assert (E : exists x,
               autotune_run Scenario.interrupted 900 Scenario.tuning = Done x
               /\ autotune_stage (app (autotune_epilogue (snd x))) = 1).
    { eexists. split; [vm_compute; reflexivity | reflexivity]. }
    destruct E as (x & Ex & Es).
    rewrite R in Ex. apply Done_inj in Ex. subst x. cbn [snd] in Es.
    exists (autotune_epilogue w1). split; [exact P |].
    split; [exact Es |]. split; [exact A |].
    destruct D as [(D & _) | [(D & _) | (_ & D & _)]];
      [rewrite Es in D; discriminate | rewrite Es in D; discriminate
      | exact D].
Defined.

(** The alternating samples of 1000 and 1200 RPM, target 300, powers 70
    and 30: [kp] is 0.12, below the bound 6 * 40 / 300 = 0.8. *)
Lemma autotune_gains_bounded_witness :
  exists l' w1,
    autotune_run Scenario.wobbling 900 Scenario.tuning = Done (l', w1)
    /\ (0 < kp_zn l' < 8 # 10)%Q
    /\ (ki_zn l' == kp_zn l')%Q.
Proof.
  assert (E : exists l' w1,
             autotune_run Scenario.wobbling 900 Scenario.tuning = Done (l', w1)
             /\ autotune_stage (app w1) = 2).
  { do 2 eexists. split; [vm_compute; reflexivity | reflexivity]. }
  destruct E as (l' & w1 & R & Hs).
  destruct (autotune_gains_bounded Scenario.wobbling 900 Scenario.tuning
              l' w1 R Hs) as (_ & _ & K0 & K1 & Ki & _).
  - reflexivity.
  - reflexivity.
  - exists l', w1. split; [exact R |]. split; [| exact Ki].
    split; [exact K0 |].
    eapply Qlt_le_trans; [exact K1 |]. vm_compute. discriminate.
Defined.

End RoutineSpec.

(** ** The release of the pedal *)

Module ReleaseSpec.

Import motor_control.
Import main.
Import SoftStartSpec.

Section WithEnv.

Variable env : nat -> Event.

(** A poll of the stop loop leaves the press state, the controller and the
    open-loop ramp alone. *)
Lemma stop_poll_app (w : World) :
  let g := app (stop_poll env w) in
  is_pedal_pressed g = is_pedal_pressed (app w)
  /\ soft_start_active g = soft_start_active (app w)
  /\ pid_controller g = pid_controller (app w)
  /\ current_soft_start_power g = current_soft_start_power (app w).
Proof.
  unfold stop_poll.
  pose proof (WorldFacts.calculate_rpm_frame w) as F.
  destruct (calculate_rpm w) as [w1 rpm]. cbn [fst] in F.
  destruct F as (_ & _ & _ & _ & Fg & _).
  destruct (sleep_ms_app env 50 (upd (set_last_rpm rpm) w1))
    as (A1 & A2 & A3 & A4).
  cbv zeta. rewrite A1, A2, A3, A4. wsimpl. rewrite Fg.
  split; [reflexivity |]. split; [reflexivity |].
  split; reflexivity.
Qed.

Lemma polls_app (j : nat) (w : World) :
  let w' := Nat.iter j (stop_poll env) w in
  is_pedal_pressed (app w') = is_pedal_pressed (app w)
  /\ soft_start_active (app w') = soft_start_active (app w)
  /\ pid_controller (app w') = pid_controller (app w)
  /\ current_soft_start_power (app w') = current_soft_start_power (app w)
  /\ awaits w' = (awaits w + j)%nat.
Proof.
  induction j as [| j IH]; simpl Nat.iter; cbv zeta.
  - split; [reflexivity |]. split; [reflexivity |]. split; [reflexivity |].
    split; [reflexivity | lia].
  - destruct IH as (I1 & I2 & I3 & I4 & I5).
    destruct (stop_poll_app (Nat.iter j (stop_poll env) w))
      as (A1 & A2 & A3 & A4).
    destruct (StopSpec.stop_poll_frame env (Nat.iter j (stop_poll env) w))
      as (_ & Fa & _).
    cbv zeta in *.
    split; [congruence |]. split; [congruence |]. split; [congruence |].
    split; [congruence | lia].
Qed.

Lemma stop_loop_asserted (fuel : nat) (down : bool) (t : Z) (w : World) :
  target_sensor_func down w = true ->
  stop_loop env fuel down t w = Done w.
Proof. intro H. destruct fuel; simpl; now rewrite H. Qed.

(** X19.  A release after a press, with suspensions that end in time:
    the pass returns after at most 100 polls with the press and the soft
    start cleared and the controller, if there is one, reset as of the
    moment of the release -- its gains kept, its integral, previous error
    and soft-start setpoint 0.  The configuration is untouched and so is the
    open-loop ramp value, which only the next press zeroes.  When the chosen
    position sensor already reads asserted at the release, the sequence
    returns without suspending at all. *)
Theorem release_clears_press_and_resets_controller (w : World) :
  timely env ->
  is_pedal_pressed (app w) = true ->
  exists (w' : World) (polls : nat),
    pedal_released env 100 w = Done w'
    /\ (polls <= 100)%nat
    /\ awaits w' = (awaits w + polls)%nat
    /\ is_pedal_pressed (app w') = false
    /\ soft_start_active (app w') = false
    /\ pid_controller (app w')
       = option_map (fun pid => reset pid (ticks_ms w)) (pid_controller (app w))
    /\ (forall pid : PID,
           pid_controller (app w) = Some pid ->
           pid_controller (app w')
           = Some (mkPID (kp pid) (ki pid) (kd pid) 0 0 (ticks_ms w) 0))
    /\ current_soft_start_power (app w') = current_soft_start_power (app w)
    /\ config w' = config w
    /\ (target_sensor_func (stops_down (config w)) w = true -> polls = 0%nat).
Proof.
  intros Ht Hp. unfold pedal_released. rewrite Hp.
  match goal with
  | |- context [needle_stop env 100 ?x] => set (wr := x)
  end.
  assert (Fr : uptime_ms wr = uptime_ms w /\ awaits wr = awaits w
               /\ config wr = config w /\ sensors wr = sensors w
               /\ is_pedal_pressed (app wr) = false
               /\ soft_start_active (app wr) = false
               /\ pid_controller (app wr)
                  = option_map (fun pid => reset pid (ticks_ms w))
                      (pid_controller (app w))
               /\ current_soft_start_power (app wr)
                  = current_soft_start_power (app w)).
  { unfold wr. wsimpl.
    destruct (pid_controller (app w)) eqn:Ep; wsimpl; rewrite ?Ep;
      (split; [reflexivity |]); (split; [reflexivity |]);
      (split; [reflexivity |]); (split; [reflexivity |]);
      (split; [reflexivity |]); (split; [reflexivity |]);
      split; reflexivity. }
  destruct Fr as (Fu & Fa & Fc & Fs & F1 & F2 & F3 & F4). clearbody wr.
  rewrite StopSpec.needle_stop_unfold. cbv zeta. rewrite Fc.
  set (down := stops_down (config w)).
  set (name := target_position_name (config w)).
  set (w0 := print (StoppingAt name) (set_motor_power stop_power wr)).
  assert (G0 : uptime_ms w0 = uptime_ms wr /\ awaits w0 = awaits wr
               /\ app w0 = app wr /\ sensors w0 = sensors wr
               /\ config w0 = config wr)
    by (unfold w0; split; [| split; [| split; [| split]]]; reflexivity).
  destruct G0 as (Gu & Ga & Gg & Gs & Gc). clearbody w0.
  destruct (StopSpec.stop_loop_terminates env down (uptime_ms wr) Ht 100 w0)
    as (w1 & R & _ & _ & _ & Qc & _); [rewrite Gu; lia | rewrite Gu; lia |].
  change (utime.wrap (uptime_ms wr)) with (ticks_ms wr) in R.
  destruct (StopSpec.stop_loop_polls env _ _ _ _ _ R) as (j & Hj & E).
  destruct (polls_app j w0) as (I1 & I2 & I3 & I4 & I5).
  cbv zeta in I1, I2, I3, I4, I5. rewrite <- E in I1, I2, I3, I4, I5.
  assert (Z0 : target_sensor_func down w = true -> j = 0%nat).
  { intro Hs.
    assert (Hs0 : target_sensor_func down w0 = true).
    { unfold target_sensor_func in *. now rewrite Gs, Fs. }
    rewrite (stop_loop_asserted 100 down _ w0 Hs0) in R.
    apply Done_inj in R. rewrite <- R in I5. lia. }
  rewrite R. cbn [bind].
  eexists. exists j. split; [reflexivity |]. wsimpl.
  assert (F3' : pid_controller (app w1)
                = option_map (fun pid => reset pid (ticks_ms w))
                    (pid_controller (app w)))
    by (rewrite I3, Gg; exact F3).
  split; [exact Hj |].
  split; [rewrite I5, Ga, Fa; reflexivity |].
  split; [rewrite I1, Gg; exact F1 |].
  split; [rewrite I2, Gg; exact F2 |].
  split; [exact F3' |].
  split; [intros pid Hs; rewrite F3', Hs; reflexivity |].
  split; [rewrite I4, Gg; exact F4 |].
  split; [rewrite Qc, Gc; exact Fc | exact Z0].
Qed.

End WithEnv.

(** Released while running open loop, the needle-down pin never going low:
    the pass ends with the press cleared. *)
Lemma release_clears_press_and_resets_controller_witness :
  exists w',
    pedal_released Scenario.still 100 Scenario.running = Done w'
    /\ is_pedal_pressed (app w') = false
    /\ soft_start_active (app w') = false
    /\ config w' = config Scenario.running.
Proof.
  destruct (release_clears_press_and_resets_controller Scenario.still
              Scenario.running)
    as (w' & polls & R & _ & _ & P & A & _ & _ & _ & C & _).
  - intro k. reflexivity.
  - reflexivity.
  - exists w'. split; [exact R |]. split; [exact P |].
    split; [exact A | exact C].
Defined.

End ReleaseSpec.
